(** * util.py: binary struct records (MapStruct / StructMeta)

    A shallow embedding of [src/util.py] and of the part of Python's
    [struct] module it calls, with the properties of the record codec.

    Conventions of the embedding (Python 3 semantics):
    - a Python [str] is the list of its code points ([pystr]); [bytes] is
      a [list byte];
    - the Python values that can sit in a field are [None], [int], [str]
      and [bytes] ([Value]); floats, bools and other objects are outside
      the model;
    - a field name is [Some s] for a Python string and [None] for Python's
      [None] (the docstring of [MapStruct] allows it for filler fields);
      field names are assumed not to shadow the attributes of [MapStruct]
      itself ([pack], [size], [_values], ...);
    - a raised exception is a value of [exn]; code that mutates the
      instance ([self._values]) is a function from the old mapping to the
      new mapping and an outcome, so that the state left behind by a
      raising call is visible;
    - [struct] is modelled for the pad, string and integer codes in
      little-endian standard mode ([x s b B h H i I l L q Q]); the char,
      bool, float and Pascal-string codes are outside the model, the
      repeat counts and sizes are unbounded, and every character the
      scanner rejects is reported as a [struct] error (CPython reports a
      character outside ASCII as a [UnicodeEncodeError]);
    - attributes of an instance other than the generated properties are
      not part of the state;
    - a class object is identified with its compiled description
      ([StructClass]): the model has no subclasses, and two class
      statements with the same name and the same fields are one class, so
      [isinstance(other, self.__class__)] is the equality of the two
      descriptions. *)

From Stdlib Require Import ZArith NArith List Ascii String Strings.Byte Lia.
From Stdlib Require DecimalString.
From stdpp Require Import base gmap strings list.

(** ** Python values and exceptions *)

Abbreviation pystr := (list N).
Abbreviation pybytes := (list byte).

Inductive Value :=
| VNone
| VInt (z : Z)
| VStr (s : pystr)
| VBytes (b : pybytes).

Inductive struct_why :=
| BadChar          (* bad char in struct format *)
| NoSpecifier      (* repeat count given without format specifier *)
| ArgCount         (* pack expected N items for packing *)
| NotBytes         (* argument for 's' must be a bytes object *)
| NotInteger       (* required argument is not an integer *)
| OutOfRange       (* argument out of range *)
| BadSize.         (* unpack requires a buffer of N bytes *)

Inductive exn :=
| TypeError
| AttributeError
| KeyError
| UnicodeEncodeError
| struct_error (why : struct_why).

Inductive result (A : Type) :=
| Ok (a : A)
| Raise (e : exn).
Arguments Ok {A} a.
Arguments Raise {A} e.

Definition rbind {A B} (r : result A) (k : A → result B) : result B :=
  match r with
  | Ok a => k a
  | Raise e => Raise e
  end.

Notation "'let*' x := r 'in' k" := (rbind r (λ x, k))
  (at level 10, x name, r at level 100, k at level 200, only parsing).

Definition is_ok {A} (r : result A) : bool :=
  match r with Ok _ => true | Raise _ => false end.

(** A string literal as a Python [str]. *)
Definition py (s : string) : pystr :=
  map N_of_ascii (list_ascii_of_string s).

(** A string literal as Python [bytes] (b"..."). *)
Definition byte_of_N (n : N) : byte :=
  match Byte.of_N (n mod 256)%N with Some b => b | None => x00 end.

Definition pyb (s : string) : pybytes :=
  map (λ a, byte_of_N (N_of_ascii a)) (list_ascii_of_string s).

(** ** The [struct] module: formats *)

Inductive Code :=
| Pad                              (* x *)
| Str                              (* s *)
| IntC (signed : bool) (width : nat).  (* b B h H i I l L q Q *)

Record Item := { count : nat; code : Code }.

(** The little-endian table of format characters (standard sizes). *)
Definition getentry (c : ascii) : option Code :=
  if Ascii.eqb c "x" then Some Pad
  else if Ascii.eqb c "s" then Some Str
  else if Ascii.eqb c "b" then Some (IntC true 1)
  else if Ascii.eqb c "B" then Some (IntC false 1)
  else if Ascii.eqb c "h" then Some (IntC true 2)
  else if Ascii.eqb c "H" then Some (IntC false 2)
  else if Ascii.eqb c "i" then Some (IntC true 4)
  else if Ascii.eqb c "I" then Some (IntC false 4)
  else if Ascii.eqb c "l" then Some (IntC true 4)
  else if Ascii.eqb c "L" then Some (IntC false 4)
  else if Ascii.eqb c "q" then Some (IntC true 8)
  else if Ascii.eqb c "Q" then Some (IntC false 8)
  else None.

Definition is_space (c : ascii) : bool :=
  let n := N_of_ascii c in
  (N.eqb n 32 || (N.leb 9 n && N.leb n 13))%bool.

Definition digit_of (c : ascii) : option nat :=
  let n := N_of_ascii c in
  if (N.leb 48 n && N.leb n 57)%bool then Some (N.to_nat (n - 48)) else None.

(** The format scanner of [Struct.__init__] (CPython's [prepare_s]):
    white space between items is skipped, a run of digits is a repeat
    count and must be followed at once by a format character.  [num] is
    the count read so far, if any. *)
Fixpoint scan (num : option nat) (s : string) : result (list Item) :=
  match s with
  | EmptyString =>
      match num with
      | Some _ => Raise (struct_error NoSpecifier)
      | None => Ok []
      end
  | String c rest =>
      match num, is_space c, digit_of c with
      | None, true, _ => scan None rest
      | None, false, Some d => scan (Some d) rest
      | Some n, _, Some d => scan (Some (n * 10 + d)%nat) rest
      | _, _, None =>
          match getentry c with
          | None => Raise (struct_error BadChar)
          | Some cd =>
              let* its := scan None rest in
              Ok ({| count := default 1%nat num; code := cd |} :: its)
          end
      end
  end.

Definition item_size (it : Item) : nat :=
  match code it with
  | Pad | Str => count it
  | IntC _ w => (count it * w)%nat
  end.

(** Number of Python values an item takes in [pack] / gives in [unpack]. *)
Definition item_nvals (it : Item) : nat :=
  match code it with
  | Pad => 0
  | Str => 1
  | IntC _ _ => count it
  end.

Definition struct_size (its : list Item) : nat :=
  foldr (λ it n, (item_size it + n)%nat) 0%nat its.

Definition struct_nvals (its : list Item) : nat :=
  foldr (λ it n, (item_nvals it + n)%nat) 0%nat its.

(** A compiled [struct.Struct]. *)
Record Struct := { format : string; items : list Item }.

(** [Struct("<" + body)] *)
Definition Struct_le (body : string) : result Struct :=
  let* its := scan None body in
  Ok {| format := String "<" body; items := its |}.

Definition size_of (st : Struct) : nat := struct_size (items st).

(** ** The [struct] module: packing and unpacking *)

Definition byte_of_Z (z : Z) : byte := byte_of_N (Z.to_N (z mod 256)%Z).

Definition int_min (sg : bool) (w : nat) : Z :=
  (if sg then - 2 ^ (8 * Z.of_nat w - 1) else 0)%Z.

Definition int_max (sg : bool) (w : nat) : Z :=
  (if sg then 2 ^ (8 * Z.of_nat w - 1) - 1 else 2 ^ (8 * Z.of_nat w) - 1)%Z.

(** The [w] low bytes of [z], least significant first (two's complement
    for a negative [z]). *)
Fixpoint le_bytes (w : nat) (z : Z) : pybytes :=
  match w with
  | O => []
  | S w' => byte_of_Z z :: le_bytes w' (z / 256)%Z
  end.

Fixpoint le_value (bs : pybytes) : Z :=
  match bs with
  | [] => 0%Z
  | b :: r => (Z.of_N (Byte.to_N b) + 256 * le_value r)%Z
  end.

Definition pack_int (sg : bool) (w : nat) (v : Value) : result pybytes :=
  match v with
  | VInt z =>
      if (int_min sg w <=? z)%Z && (z <=? int_max sg w)%Z
      then Ok (le_bytes w z)
      else Raise (struct_error OutOfRange)
  | _ => Raise (struct_error NotInteger)
  end.

Fixpoint pack_ints (sg : bool) (w : nat) (args : list Value) : result pybytes :=
  match args with
  | [] => Ok []
  | v :: args' =>
      let* b := pack_int sg w v in
      let* bs := pack_ints sg w args' in
      Ok (b ++ bs)
  end.

(** One item of the format, given the values it takes. *)
Definition pack_item (it : Item) (args : list Value) : result pybytes :=
  match code it with
  | Pad => Ok (replicate (count it) x00)
  | Str =>
      match args with
      | [VBytes b] =>
          Ok (take (count it) b ++ replicate (count it - length b) x00)
      | _ => Raise (struct_error NotBytes)
      end
  | IntC sg w => pack_ints sg w args
  end.

Fixpoint pack_items (its : list Item) (args : list Value) : result pybytes :=
  match its with
  | [] => Ok []
  | it :: its' =>
      let* b := pack_item it (take (item_nvals it) args) in
      let* bs := pack_items its' (drop (item_nvals it) args) in
      Ok (b ++ bs)
  end.

(** [Struct.pack] and the module's [pack], on the items of the format. *)
Definition struct_pack (its : list Item) (args : list Value) : result pybytes :=
  if Nat.eqb (length args) (struct_nvals its)
  then pack_items its args
  else Raise (struct_error ArgCount).

Definition unpack_int (sg : bool) (w : nat) (bs : pybytes) : Value :=
  let u := le_value bs in
  VInt (if sg && (2 ^ (8 * Z.of_nat w - 1) <=? u)%Z
        then (u - 2 ^ (8 * Z.of_nat w))%Z else u).

Fixpoint unpack_ints (sg : bool) (w n : nat) (data : pybytes) : list Value :=
  match n with
  | O => []
  | S n' => unpack_int sg w (take w data) :: unpack_ints sg w n' (drop w data)
  end.

Definition unpack_item (it : Item) (data : pybytes) : list Value :=
  match code it with
  | Pad => []
  | Str => [VBytes (take (count it) data)]
  | IntC sg w => unpack_ints sg w (count it) data
  end.

Fixpoint unpack_items (its : list Item) (data : pybytes) : list Value :=
  match its with
  | [] => []
  | it :: its' =>
      unpack_item it (take (item_size it) data)
        ++ unpack_items its' (drop (item_size it) data)
  end.

(** [Struct.unpack(data)] *)
Definition struct_unpack (its : list Item) (data : Value) : result (list Value) :=
  match data with
  | VBytes b =>
      if Nat.eqb (length b) (struct_size its)
      then Ok (unpack_items its b)
      else Raise (struct_error BadSize)
  | _ => Raise TypeError
  end.

(** ** Functions for processing lump names and other strings *)

(** [six.b(s)] on Python 3: [s.encode("latin-1")]. *)
Definition six_b (s : Value) : result Value :=
  match s with
  | VStr cs =>
      if forallb (λ c, c <? 256)%N cs
      then Ok (VBytes (map byte_of_N cs))
      else Raise UnicodeEncodeError
  | _ => Raise AttributeError
  end.

(** The format ['8s']. *)
Definition fmt_8s : list Item := [{| count := 8; code := Str |}].

Definition zpad (chars : Value) : result Value :=
  let* b := six_b chars in
  let* p := struct_pack fmt_8s [b] in
  Ok (VBytes p).

(** [chars.decode('ascii', 'ignore')] *)
Definition decode_ascii_ignore (b : pybytes) : pystr :=
  map Byte.to_N (List.filter (λ x, Byte.to_N x <? 128)%N b).

(** ['\0' in chars] *)
Definition contains_nul (chars : pystr) : bool := existsb (N.eqb 0) chars.

(** [chars.index("\0")] *)
Fixpoint index_nul (chars : pystr) : nat :=
  match chars with
  | [] => 0
  | c :: r => if (c =? 0)%N then 0%nat else S (index_nul r)
  end.

Definition zstrip (chars : Value) : result Value :=
  let chars :=
    match chars with
    | VBytes b => VStr (decode_ascii_ignore b)
    | _ => chars
    end in
  match chars with
  | VStr cs =>
      if contains_nul cs
      then Ok (VStr (take (index_nul cs) cs))
      else Ok (VStr cs)
  | _ => Raise TypeError
  end.

(** ** Field descriptors *)

Abbreviation Name := (option string).

(** A tuple of [__fields__]: name, type, default value, docstring. *)
Record FieldSpec := {
  f_name : Name;             (* f[0] *)
  f_type : option string;    (* f[1]; [None] is Python's None *)
  f_value : Value;           (* f[2] *)
  f_doc : option string      (* f[3], optional *)
}.

(** [c in t] for a character [c]; raises on [None]. *)
Definition char_in (c : ascii) (t : option string) : result bool :=
  match t with
  | None => Raise TypeError
  | Some s => Ok (existsb (Ascii.eqb c) (list_ascii_of_string s))
  end.

(** Truth value of a type code ([if f[1]]). *)
Definition truthy (t : option string) : bool :=
  match t with
  | None | Some EmptyString => false
  | Some _ => true
  end.

(** ** The compiled class *)

Record StructClass := {
  cls_name : string;
  __fields__ : list FieldSpec;
  properties : gmap Name FieldSpec;   (* the generated property of a name *)
  _keys : list Name;
  _struct : Struct
}.

Module StructMeta.

(** Get struct field or default value *)
Definition _get (f : FieldSpec) (_values : gmap Name Value) : result Value :=
  match _values !! f_name f with
  | Some v => Ok v
  | None => Raise KeyError
  end.

(** Set struct field, stripping null bytes from string fields *)
Definition _set (f : FieldSpec) (value : Value) (_values : gmap Name Value)
  : gmap Name Value * result unit :=
  match char_in "s" (f_type f) with
  | Raise e => (_values, Raise e)
  | Ok true =>
      match zstrip value with
      | Ok v => (<[f_name f := v]> _values, Ok ())
      | Raise e => (_values, Raise e)
      end
  | Ok false => (<[f_name f := value]> _values, Ok ())
  end.

Definition size (cls : StructClass) : nat := size_of (_struct cls).

Definition __len__ (cls : StructClass) : nat := size_of (_struct cls).

(** Set up attributes for all defined fields *)
Fixpoint set_up_attributes (fields : list FieldSpec)
    (dict : gmap Name FieldSpec) : result (gmap Name FieldSpec) :=
  match fields with
  | [] => Ok dict
  | f :: fields' =>
      let* x := char_in "x" (f_type f) in
      set_up_attributes fields'
        (if negb x then <[f_name f := f]> dict else dict)
  end.

(** [[f[0] for f in fields if 'x' not in f[1]]] *)
Fixpoint keys_of (fields : list FieldSpec) : result (list Name) :=
  match fields with
  | [] => Ok []
  | f :: fields' =>
      let* x := char_in "x" (f_type f) in
      let* ks := keys_of fields' in
      Ok (if negb x then f_name f :: ks else ks)
  end.

(** ["".join(f[1] for f in fields if f[1])] *)
Fixpoint join_types (fields : list FieldSpec) : string :=
  match fields with
  | [] => EmptyString
  | f :: fields' =>
      if truthy (f_type f)
      then String.append (default EmptyString (f_type f)) (join_types fields')
      else join_types fields'
  end.

Definition __new__ (name : string) (fields : list FieldSpec)
  : result StructClass :=
  let* props := set_up_attributes fields ∅ in
  let* keys := keys_of fields in
  let* st := Struct_le (join_types fields) in
  Ok {| cls_name := name; __fields__ := fields; properties := props;
        _keys := keys; _struct := st |}.

End StructMeta.

(** ** Instances *)

(** Code that may write [self._values] and may raise. *)
Definition M (A : Type) : Type :=
  gmap Name Value → gmap Name Value * result A.

Fixpoint for_each {A} (body : A → M unit) (l : list A) : M unit :=
  λ vals,
    match l with
    | [] => (vals, Ok ())
    | a :: l' =>
        match body a vals with
        | (vals', Ok _) => for_each body l' vals'
        | (vals', Raise e) => (vals', Raise e)
        end
    end.

(** [getattr(self, key)]: only the generated properties are modelled. *)
Definition getattr (cls : StructClass) (key : Name)
    (vals : gmap Name Value) : result Value :=
  match key with
  | None => Raise TypeError
  | Some _ =>
      match properties cls !! key with
      | Some f => StructMeta._get f vals
      | None => Raise AttributeError
      end
  end.

(** [setattr(self, key, value)]: a name without a generated property
    becomes a plain instance attribute and leaves [_values] alone. *)
Definition setattr (cls : StructClass) (key : Name) (value : Value) : M unit :=
  λ vals,
    match key with
    | None => (vals, Raise TypeError)
    | Some _ =>
        match properties cls !! key with
        | Some f => StructMeta._set f value vals
        | None => (vals, Ok ())
        end
    end.

(** An insertion-ordered [dict], for the local [values] of [__init__]. *)
Fixpoint od_set (k : Name) (v : Value) (d : list (Name * Value))
  : list (Name * Value) :=
  match d with
  | [] => [(k, v)]
  | (k', v') :: d' =>
      if decide (k = k') then (k, v) :: d' else (k', v') :: od_set k v d'
  end.

Definition od_update (d items : list (Name * Value)) : list (Name * Value) :=
  foldl (λ d kv, od_set kv.1 kv.2 d) d items.

Definition od_get (k : Name) (d : list (Name * Value)) : option Value :=
  snd <$> List.find (λ kv, bool_decide (kv.1 = k)) d.

(** An instance: its class and its [_values] mapping. *)
Record Instance := { klass : StructClass; _values : gmap Name Value }.

#[global] Instance byte_eq_dec : EqDecision byte := Byte.byte_eq_dec.
#[global] Instance Value_eq_dec : EqDecision Value.
Proof. solve_decision. Defined.
#[global] Instance Code_eq_dec : EqDecision Code.
Proof. solve_decision. Defined.
#[global] Instance Item_eq_dec : EqDecision Item.
Proof. solve_decision. Defined.
#[global] Instance Struct_eq_dec : EqDecision Struct.
Proof. solve_decision. Defined.
#[global] Instance FieldSpec_eq_dec : EqDecision FieldSpec.
Proof. solve_decision. Defined.
#[global] Instance StructClass_eq_dec : EqDecision StructClass.
Proof.
  intros [n1 f1 p1 k1 s1] [n2 f2 p2 k2 s2].
  destruct (decide (n1 = n2)); [| right; congruence].
  destruct (decide (f1 = f2)); [| right; congruence].
  destruct (decide (p1 = p2)); [| right; congruence].
  destruct (decide (k1 = k2)); [| right; congruence].
  destruct (decide (s1 = s2)); [| right; congruence].
  left; congruence.
Defined.

(** ** Textual forms of values: [str(v)] *)

Definition str_of_int (z : Z) : pystr :=
  py (DecimalString.NilZero.string_of_int (Z.to_int z)).

Definition hex_digit (n : N) : N :=
  if (n <? 10)%N then (48 + n)%N else (87 + n)%N.

(** One byte inside the [repr] of a [bytes] object. *)
Definition repr_byte (quote : N) (b : byte) : pystr :=
  let c := Byte.to_N b in
  if (c =? quote)%N || (c =? 92)%N then [92; c]%N
  else if (c =? 9)%N then [92; 116]%N
  else if (c =? 10)%N then [92; 110]%N
  else if (c =? 13)%N then [92; 114]%N
  else if (c <? 32)%N || (127 <=? c)%N
       then [92; 120; hex_digit (c / 16); hex_digit (c mod 16)]%N
  else [c].

Definition repr_bytes (b : pybytes) : pystr :=
  let has c := existsb (λ x, Byte.to_N x =? c)%N b in
  let quote := if has 39%N && negb (has 34%N) then 34%N else 39%N in
  [98%N; quote] ++ concat (map (repr_byte quote) b) ++ [quote].

Definition str_of_value (v : Value) : pystr :=
  match v with
  | VNone => py "None"
  | VInt z => str_of_int z
  | VStr s => s
  | VBytes b => repr_bytes b
  end.

Definition str_of_name (n : Name) : pystr :=
  match n with
  | None => py "None"
  | Some s => py s
  end.

(** [sep.join(l)] *)
Fixpoint join (sep : pystr) (l : list pystr) : pystr :=
  match l with
  | [] => []
  | [s] => s
  | s :: l' => s ++ sep ++ join sep l'
  end.

Fixpoint mapM {A B} (f : A → result B) (l : list A) : result (list B) :=
  match l with
  | [] => Ok []
  | a :: l' =>
      let* b := f a in
      let* bs := mapM f l' in
      Ok (b :: bs)
  end.

Module MapStruct.

(** default values (including non-stored properties) *)
Definition default_values (fields : list FieldSpec) : gmap Name Value :=
  foldl (λ d f, <[f_name f := f_value f]> d) ∅ fields.

Definition unpack (cls : StructClass) (data : Value) : M unit :=
  λ vals,
    match struct_unpack (items (_struct cls)) data with
    | Raise e => (vals, Raise e)
    | Ok vs =>
        for_each (λ kv, setattr cls kv.1 kv.2) (zip (_keys cls) vs) vals
    end.

(** The body of the loop over [values.items()] in [__init__]. *)
Definition init_body (cls : StructClass) (kv : Name * Value) : M unit :=
  λ vals,
    if bool_decide (kv.1 ∈ _keys cls)
    then setattr cls kv.1 kv.2 vals
    else (vals, Ok ()).

(** [def __init__(self, *args, **kwargs)], called on the new object with
    the arguments of the constructor call.  The parameter [self] is bound
    to the new object, so a keyword named [self] is a second value for it:
    Python raises [TypeError] while it binds the arguments and the body
    does not run.  No instance is returned then; the mapping given with
    the error is the one of the defaults, with which the body would
    start. *)
Definition __init__ (cls : StructClass) (args : list Value)
    (kwargs : list (string * Value)) : gmap Name Value * result unit :=
  let vals := default_values (__fields__ cls) in
  let kwargs := od_update [] (map (λ kv, (Some kv.1, kv.2)) kwargs) in
  match od_get (Some "self"%string) kwargs with
  | Some _ => (vals, Raise TypeError)
  | None =>
      match od_get (Some "bytes"%string) kwargs with
      | Some data => unpack cls data vals
      | None =>
          let values := [] in
          let values := od_update values (od_update [] (zip (_keys cls) args)) in
          let values := od_update values kwargs in
          for_each (init_body cls) values vals
      end
  end.

(** The loop of [pack] that fills [packs]. *)
Fixpoint packs (cls : StructClass) (fields : list FieldSpec)
    (vals : gmap Name Value) : result (list Value) :=
  match fields with
  | [] => Ok []
  | f :: fields' =>
      let* s := char_in "s" (f_type f) in
      if s then
        let* v := getattr cls (f_name f) vals in
        let* p := zpad v in
        let* ps := packs cls fields' vals in
        Ok (p :: ps)
      else if bool_decide (f_name f ∈ _keys cls) then
        let* v := getattr cls (f_name f) vals in
        let* ps := packs cls fields' vals in
        Ok (v :: ps)
      else packs cls fields' vals
  end.

Definition pack (cls : StructClass) (vals : gmap Name Value)
  : result pybytes :=
  let* ps := packs cls (__fields__ cls) vals in
  struct_pack (items (_struct cls)) ps.

Definition __eq__ (self other : Instance) : bool :=
  bool_decide (klass other = klass self)
  && bool_decide (_values self = _values other).

Definition __ne__ (self other : Instance) : bool := negb (__eq__ self other).

(** ["{0}={1}".format(f[0], self._values[f[0]])] *)
Definition str_item (vals : gmap Name Value) (f : FieldSpec) : result pystr :=
  match vals !! f_name f with
  | Some v => Ok (str_of_name (f_name f) ++ py "=" ++ str_of_value v)
  | None => Raise KeyError
  end.

Definition __str__ (cls : StructClass) (vals : gmap Name Value)
  : result pystr :=
  let* l := mapM (str_item vals) (__fields__ cls) in
  Ok (join (py ", ") l).

Definition size (cls : StructClass) : nat := size_of (_struct cls).

Definition __len__ (cls : StructClass) : nat := size_of (_struct cls).

End MapStruct.

(** ** Example record types *)

Definition field (n t : string) (v : Value) : FieldSpec :=
  {| f_name := Some n; f_type := Some t; f_value := v; f_doc := None |}.

Definition filler (t : string) : FieldSpec :=
  {| f_name := None; f_type := Some t; f_value := VNone; f_doc := None |}.

(** A field without a type code (the docstring's [type is None]). *)
Definition virtual (n : string) (v : Value) : FieldSpec :=
  {| f_name := Some n; f_type := None; f_value := v; f_doc := None |}.

(** The record of the spec's example scenario, with two filler bytes. *)
Definition ex_fields : list FieldSpec :=
  [field "id" "4s" (VStr []); field "count" "h" (VInt 0); filler "2x"].

Definition ex_struct : Struct :=
  {| format := "<4sh2x";
     items := [{| count := 4; code := Str |};
               {| count := 1; code := IntC true 2 |};
               {| count := 2; code := Pad |}] |}.

Definition ex_cls : StructClass :=
  {| cls_name := "Ex"; __fields__ := ex_fields;
     properties :=
       <[Some "count"%string := field "count" "h" (VInt 0)]>
         (<[Some "id"%string := field "id" "4s" (VStr [])]> ∅);
     _keys := [Some "id"; Some "count"]%string;
     _struct := ex_struct |}.

(** ** The data model of the specification

    The code takes any string as a type code.  The specification's
    field descriptors are those whose type code is one format item: a
    pad or string item with any count, or one integer. *)

(** ['x' in f[1]] and ['s' in f[1]] on a field that has a type code. *)
Definition is_filler (f : FieldSpec) : bool :=
  match char_in "x" (f_type f) with Ok b => b | Raise _ => false end.

Definition is_string (f : FieldSpec) : bool :=
  match char_in "s" (f_type f) with Ok b => b | Raise _ => false end.

Definition one_item (tc : string) : option Item :=
  match scan None tc with
  | Ok [it] =>
      match code it with
      | IntC _ _ => if Nat.eqb (count it) 1 then Some it else None
      | _ => Some it
      end
  | _ => None
  end.

Definition field_item (f : FieldSpec) : option Item :=
  match f_type f with
  | Some tc => one_item tc
  | None => None
  end.

Definition wf_type (f : FieldSpec) : bool :=
  match f_type f with
  | Some tc => bool_decide (is_Some (one_item tc))
  | None => true
  end.

(** Names of the non-filler fields, in declaration order. *)
Definition key_names (fields : list FieldSpec) : list Name :=
  map f_name (List.filter (λ f, negb (is_filler f)) fields).

(** Type codes are single items, the non-filler fields have distinct
    string names, and no filler field uses the name of another field. *)
Definition wf_fields (fields : list FieldSpec) : bool :=
  forallb wf_type fields
  && bool_decide (NoDup (key_names fields))
  && forallb (λ f, if is_filler f
                   then bool_decide (f_name f ∉ key_names fields)
                   else bool_decide (is_Some (f_name f))) fields.

(** The property table and the layout the metaclass builds, as
    functions of the field list. *)
Definition props_of (fields : list FieldSpec) : gmap Name FieldSpec :=
  foldl (λ d f, if negb (is_filler f) then <[f_name f := f]> d else d) ∅ fields.

Definition has_type (f : FieldSpec) : bool :=
  match f_type f with Some _ => true | None => false end.

(** Characters of an ASCII text without NUL. *)
Definition is_text (s : pystr) : bool :=
  forallb (λ c, (0 <? c) && (c <? 128))%N s.

(** The characters CPython's [struct] accepts in a little-endian
    format: white space, digits and the format characters (those of the
    model and [c ? e f d p]). *)
Definition unsupported_char (c : ascii) : bool :=
  negb (is_space c
        || (match digit_of c with Some _ => true | None => false end)
        || existsb (Ascii.eqb c) (list_ascii_of_string "xcbB?hHiIlLqQefdsp")).

(** A type code that is not a format on its own. *)
Definition malformed (t : option string) : bool :=
  match t with
  | Some tc => negb (is_ok (Struct_le tc))
  | None => false
  end.

(** Instances of the example record. *)
Definition ex_long : gmap Name Value :=
  (MapStruct.__init__ ex_cls []
     [("id", VStr (py "TOOLONGNAME")); ("count", VInt 5)]%string).1.

Definition ex_ab : gmap Name Value :=
  (MapStruct.__init__ ex_cls [VStr (py "AB"); VInt 5] []).1.

(** A record whose first type code is only a repeat count. *)
Definition count_fields : list FieldSpec :=
  [field "a" "4" (VInt 0); field "b" "h" (VInt 0)].

(** A record with a field without type code. *)
Definition virtual_fields : list FieldSpec :=
  [field "a" "h" (VInt 0); virtual "v" (VInt 0)].

(** What the generated setter of field [f] stores for [value]. *)
Definition store (f : FieldSpec) (value : Value) : result Value :=
  if is_string f then zstrip value else Ok value.

(** A value without NUL (a value that is no text holds none). *)
Definition no_nul (v : Value) : bool :=
  match v with
  | VStr s => negb (contains_nul s)
  | VBytes b => negb (existsb (λ x, Byte.to_N x =? 0)%N b)
  | _ => true
  end.

(** The stored value of every string-typed field holds no NUL. *)
Definition strings_clean (fields : list FieldSpec)
    (vals : gmap Name Value) : Prop :=
  ∀ f v, In f fields → is_string f = true →
         vals !! f_name f = Some v → no_nul v = true.

(** ** Constructor arguments, as the specification reads them *)

(** The last binding of [k] in a list of bindings. *)
Definition lookup_last (k : Name) (l : list (Name * Value)) : option Value :=
  foldl (λ acc kv, if decide (kv.1 = k) then Some kv.2 else acc) None l.

Definition kw_names (kwargs : list (string * Value)) : list (Name * Value) :=
  map (λ kv, (Some kv.1, kv.2)) kwargs.

(** The non-filler fields, in declaration order. *)
Definition key_fields (fields : list FieldSpec) : list FieldSpec :=
  List.filter (λ f, negb (is_filler f)) fields.

(** The value given to the [i]-th non-filler field, named [k]: the
    keyword value if there is one, else the [i]-th positional value. *)
Definition assigned (args : list Value) (kwargs : list (string * Value))
    (i : nat) (k : Name) : option Value :=
  match lookup_last k (kw_names kwargs) with
  | Some v => Some v
  | None => args !! i
  end.

(** Arguments of a constructor call on the example record: one
    positional value too many and a keyword that names no field. *)
Definition ex_args : list Value := [VStr (py "AB"); VInt 1; VInt 99].
Definition ex_kwargs : list (string * Value) :=
  [("count", VInt 5); ("colour", VNone)]%string.

(** ** The wire format, as the specification reads it *)

(** The items of the compiled format, one per field with a type code. *)
Definition layout (fields : list FieldSpec) : list Item :=
  flat_map (λ f, match field_item f with Some it => [it] | None => [] end)
    fields.

(** The text up to the first NUL. *)
Definition strip_nul (cs : pystr) : pystr :=
  if contains_nul cs then take (index_nul cs) cs else cs.

(** The values read from a buffer, field by field in declaration order:
    each field owns the next [item_size] bytes; a filler gives no value,
    a string gives its ASCII text up to the first NUL, an integer its
    little-endian value. *)
Fixpoint decode_fields (fields : list FieldSpec) (b : pybytes)
  : list (Name * Value) :=
  match fields with
  | [] => []
  | f :: fields' =>
      match field_item f with
      | Some it =>
          let chunk := take (item_size it) b in
          let rest := decode_fields fields' (drop (item_size it) b) in
          match code it with
          | Pad => rest
          | Str => (f_name f, VStr (strip_nul (decode_ascii_ignore chunk))) :: rest
          | IntC sg w => (f_name f, unpack_int sg w chunk) :: rest
          end
      | None => decode_fields fields' b
      end
  end.

(** Writing a list of bindings into the value mapping, in order. *)
Definition write_all (vals : gmap Name Value) (l : list (Name * Value))
  : gmap Name Value :=
  foldl (λ m kv, <[kv.1 := kv.2]> m) vals l.

(** A value that fits the field: an integer in the range of the code,
    or a text of ASCII characters other than NUL that is no longer than
    8 and than the declared width. *)
Definition conforms (f : FieldSpec) (v : Value) : bool :=
  match field_item f with
  | Some it =>
      match code it, v with
      | Pad, _ => true
      | Str, VStr s => is_text s && (length s <=? Nat.min 8 (count it))%nat
      | IntC sg w, VInt z => (int_min sg w <=? z)%Z && (z <=? int_max sg w)%Z
      | _, _ => false
      end
  | None => false
  end.

Definition conformant (fields : list FieldSpec)
    (vals : gmap Name Value) : Prop :=
  ∀ f, In f fields → is_filler f = false →
       ∃ v, vals !! f_name f = Some v ∧ conforms f v = true.

(** The value mappings an instance of [cls] can hold: the one left by
    the constructor, and those left by a setter or by [unpack] (also when
    the call raises). *)
Inductive reachable (cls : StructClass) : gmap Name Value → Prop :=
| reach_init args kwargs :
    reachable cls (MapStruct.__init__ cls args kwargs).1
| reach_setattr key value vals :
    reachable cls vals → reachable cls (setattr cls key value vals).1
| reach_unpack data vals :
    reachable cls vals → reachable cls (MapStruct.unpack cls data vals).1.

(** The textual form the specification describes, without the filler
    fields. *)
Definition str_without_fillers (cls : StructClass)
    (vals : gmap Name Value) : result pystr :=
  let* l := mapM (MapStruct.str_item vals) (key_fields (__fields__ cls)) in
  Ok (join (py ", ") l).

(** Only the names of the non-filler fields are ever written, and every
    field name keeps an entry. *)
Definition keys_only (fields : list FieldSpec)
    (vals : gmap Name Value) : Prop :=
  (∀ n, n ∉ key_names fields →
     vals !! n = MapStruct.default_values fields !! n)
  ∧ (∀ f, In f fields → is_Some (vals !! f_name f)).

(** A record with an empty type code, the only type code without bytes
    that compiles. *)
Definition empty_code_fields : list FieldSpec :=
  [field "v" "" (VInt 0); field "n" "h" (VInt 7)].

(** The record of the specification's example scenario. *)
Definition scenario_fields : list FieldSpec :=
  [field "id" "4s" (VStr []); field "count" "h" (VInt 0)].

(** ** Packed integers *)

(** The module's [pack("<" + body, ...)] and [unpack("<" + body, s)]. *)
Definition pack_le (body : string) (args : list Value) : result pybytes :=
  let* st := Struct_le body in
  struct_pack (items st) args.

Definition unpack_le (body : string) (s : Value) : result (list Value) :=
  let* st := Struct_le body in
  struct_unpack (items st) s.

(** [t[0]] on the tuple [unpack] returns; a format with one integer
    gives a tuple of one value, so the index is always in range. *)
Definition item0 (t : list Value) : Value := default VNone (head t).

(** Convert a packed signed short (2 bytes) to a Python int *)
Definition unpack16 (s : Value) : result Value :=
  let* t := unpack_le "h" s in Ok (item0 t).

(** Convert a Python int to a packed signed short (2 bytes) *)
Definition pack16 (n : Value) : result pybytes := pack_le "h" [n].

(** Convert a packed signed long (4 bytes) to a Python int *)
Definition unpack32 (s : Value) : result Value :=
  let* t := unpack_le "i" s in Ok (item0 t).

(** Convert a Python int to a packed signed long (4 bytes) *)
Definition pack32 (n : Value) : result pybytes := pack_le "i" [n].

(** ** What [pack] writes, field by field *)

(** A value [Struct.pack] takes for the field: any integer in the range
    of the code, any text of Latin-1 characters. *)
Definition packable (f : FieldSpec) (v : Value) : bool :=
  match field_item f with
  | Some it =>
      match code it, v with
      | Pad, _ => true
      | Str, VStr s => forallb (λ c, c <? 256)%N s
      | IntC sg w, VInt z => (int_min sg w <=? z)%Z && (z <=? int_max sg w)%Z
      | _, _ => false
      end
  | None => false
  end.

(** The bytes of the fields in declaration order: zero bytes for a
    filler, the first 8 bytes of a text cut or NUL-padded to the width of
    its field, the little-endian bytes of an integer. *)
Fixpoint encode_fields (fields : list FieldSpec) (vals : gmap Name Value)
  : pybytes :=
  match fields with
  | [] => []
  | f :: fields' =>
      match field_item f with
      | Some it =>
          match code it, vals !! f_name f with
          | Pad, _ => replicate (count it) x00
          | Str, Some (VStr s) =>
              resize (count it) x00 (take 8 (map byte_of_N s))
          | IntC sg w, Some (VInt z) => le_bytes w z
          | _, _ => []
          end ++ encode_fields fields' vals
      | None => encode_fields fields' vals
      end
  end.

(** A value as [unpack] leaves it in the field: an integer in the range
    of the code, or a text of ASCII characters other than NUL that is no
    longer than the width of the field. *)
Definition fits (f : FieldSpec) (v : Value) : bool :=
  match field_item f with
  | Some it =>
      match code it, v with
      | Pad, _ => true
      | Str, VStr s => is_text s && (length s <=? count it)%nat
      | IntC sg w, VInt z => (int_min sg w <=? z)%Z && (z <=? int_max sg w)%Z
      | _, _ => false
      end
  | None => false
  end.

(** * Properties *)

(** ** Bytes and integers *)

Lemma to_N_byte_of_N (n : N) : (n < 256)%N → Byte.to_N (byte_of_N n) = n.
Proof.
  intros Hn. unfold byte_of_N. rewrite N.mod_small by lia.
  destruct (Byte.of_N n) as [b|] eqn:E.
  - by apply Byte.to_of_N.
  - apply Byte.of_N_None_iff in E. lia.
Qed.

Lemma byte_of_N_to_N (b : byte) : byte_of_N (Byte.to_N b) = b.
Proof.
  unfold byte_of_N. pose proof (Byte.to_N_bounded b).
  rewrite N.mod_small by lia. by rewrite Byte.of_to_N.
Qed.

Lemma length_le_bytes (w : nat) (z : Z) : length (le_bytes w z) = w.
Proof. revert z. induction w as [|w IH]; intros z; simpl; [done | by rewrite IH]. Qed.

Lemma length_pack_ints sg w args b :
  pack_ints sg w args = Ok b → length b = (length args * w)%nat.
Proof.
  revert b. induction args as [|v args IH]; intros b; simpl.
  - by intros [= <-].
  - destruct (pack_int sg w v) as [bv|] eqn:Ev; simpl; [|done].
    destruct (pack_ints sg w args) as [bs|]; simpl; [|done].
    intros [= <-]. rewrite length_app, (IH bs eq_refl).
    unfold pack_int in Ev. destruct v; try done.
    destruct (_ && _); [|done]. injection Ev as <-.
    rewrite length_le_bytes. lia.
Qed.

Lemma length_pack_item it args b :
  length args = item_nvals it →
  pack_item it args = Ok b → length b = item_size it.
Proof.
  unfold pack_item, item_nvals, item_size. destruct (code it) as [| |sg w].
  - intros _ [= <-]. by rewrite length_replicate.
  - intros _. destruct args as [|[] [|]]; try done.
    intros [= <-]. rewrite length_app, length_take, length_replicate. lia.
  - intros Hn Hp. apply length_pack_ints in Hp. by rewrite Hp, Hn.
Qed.

Lemma length_pack_items its args b :
  length args = struct_nvals its →
  pack_items its args = Ok b → length b = struct_size its.
Proof.
  revert args b. induction its as [|it its IH]; intros args b; simpl.
  - by intros _ [= <-].
  - intros Hn.
    destruct (pack_item it _) as [bi|] eqn:Ei; simpl; [|done].
    destruct (pack_items its _) as [bs|] eqn:Es; simpl; [|done].
    intros [= <-]. rewrite length_app.
    apply length_pack_item in Ei; [|rewrite length_take; lia].
    apply IH in Es; [|rewrite length_drop; lia]. lia.
Qed.

Lemma length_struct_pack its args b :
  struct_pack its args = Ok b → length b = struct_size its.
Proof.
  unfold struct_pack. destruct (Nat.eqb_spec (length args) (struct_nvals its)); [|done].
  by apply length_pack_items.
Qed.

Lemma unpack_bad_size cls b vals :
  length b ≠ MapStruct.size cls →
  MapStruct.unpack cls (VBytes b) vals = (vals, Raise (struct_error BadSize)).
Proof.
  intros Hne. unfold MapStruct.unpack, struct_unpack.
  destruct (Nat.eqb_spec (length b) (struct_size (items (_struct cls)))); [|done].
  by destruct Hne.
Qed.

(** ** The format scanner *)

Lemma rbind_ok {A} (r : result A) : rbind r Ok = r.
Proof. by destruct r. Qed.

Lemma scan_app tc : ∀ num its rest,
  scan num tc = Ok its →
  scan num (String.append tc rest) = rbind (scan None rest) (λ r, Ok (its ++ r)).
Proof.
  induction tc as [|c tc IH]; intros num its rest; simpl.
  - destruct num; [done|]. intros [= <-]. simpl. by rewrite rbind_ok.
  - destruct num as [n|], (is_space c), (digit_of c) as [d|];
      try (by apply IH);
      (destruct (getentry c) as [cd|]; [|done]);
      (destruct (scan None tc) as [l|] eqn:El; [|done]);
      simpl; intros [= <-]; rewrite (IH None l rest El);
      by destruct (scan None rest).
Qed.

(** A character that is neither white space, a digit nor a format
    character makes the scanner fail, wherever it stands. *)
Lemma scan_bad_char c s : ∀ num,
  In c (list_ascii_of_string s) →
  is_space c = false → digit_of c = None → getentry c = None →
  is_ok (scan num s) = false.
Proof.
  intros num Hin Hsp Hd He. revert num Hin.
  induction s as [|a s IH]; intros num; simpl; [done|].
  intros [->|Hin].
  - rewrite Hsp, Hd, He. by destruct num.
  - destruct num as [n|], (is_space a), (digit_of a) as [d|];
      try (by apply IH);
      (destruct (getentry a); [|done]);
      specialize (IH None Hin); by destruct (scan None s).
Qed.

Lemma scan_some_not_nil s : ∀ n, scan (Some n) s ≠ Ok [].
Proof.
  induction s as [|c s IH]; intros n; simpl; [done|].
  destruct (is_space c), (digit_of c); try apply IH;
    destruct (getentry c); try done; by destruct (scan None s).
Qed.

Lemma is_space_neq c a : is_space c = false → is_space a = true → Ascii.eqb c a = false.
Proof.
  intros Hc Ha. destruct (Ascii.eqb_spec c a) as [->|]; [congruence | done].
Qed.

Lemma digit_neq c a d : digit_of c = None → digit_of a = Some d → Ascii.eqb c a = false.
Proof.
  intros Hc Ha. destruct (Ascii.eqb_spec c a) as [->|]; [congruence | done].
Qed.

Lemma scan_nil_no_char c s :
  is_space c = false → scan None s = Ok [] →
  existsb (Ascii.eqb c) (list_ascii_of_string s) = false.
Proof.
  intros Hc. induction s as [|a s IH]; simpl; [done|].
  destruct (is_space a) eqn:Ha.
  - intros Hs. by rewrite (is_space_neq c a), IH.
  - destruct (digit_of a).
    + intros Hs. by apply scan_some_not_nil in Hs.
    + destruct (getentry a); [|done]. by destruct (scan None s).
Qed.

(** A type code that scans to one item is white space, digits, one
    format character, white space. *)
Lemma scan_single tc : ∀ num it,
  scan num tc = Ok [it] →
  ∃ c', getentry c' = Some (code it) ∧
    ∀ c, is_space c = false → digit_of c = None →
      existsb (Ascii.eqb c) (list_ascii_of_string tc) = Ascii.eqb c c'.
Proof.
  induction tc as [|a tc IH]; intros num it; simpl.
  { by destruct num. }
  assert (Hcode : (match getentry a with
                   | Some cd =>
                       rbind (scan None tc) (λ its,
                         Ok ({| count := default 1%nat num; code := cd |} :: its))
                   | None => Raise (struct_error BadChar)
                   end) = Ok [it] →
    ∃ c', getentry c' = Some (code it) ∧
      ∀ c, is_space c = false → digit_of c = None →
        Ascii.eqb c a || existsb (Ascii.eqb c) (list_ascii_of_string tc)
        = Ascii.eqb c c').
  { destruct (getentry a) as [cd|] eqn:Ea; [|done].
    destruct (scan None tc) as [l|] eqn:El; [|done]. simpl.
    intros [= <- ->]. exists a. split; [done|].
    intros c Hc _. rewrite (scan_nil_no_char c tc Hc El). by rewrite orb_false_r. }
  assert (Hrec : ∀ num', (is_space a = true ∨ is_Some (digit_of a)) →
    scan num' tc = Ok [it] →
    ∃ c', getentry c' = Some (code it) ∧
      ∀ c, is_space c = false → digit_of c = None →
        Ascii.eqb c a || existsb (Ascii.eqb c) (list_ascii_of_string tc)
        = Ascii.eqb c c').
  { intros num' Ha Hs. destruct (IH num' it Hs) as (c' & Hc' & Hex).
    exists c'. split; [done|]. intros c Hc Hd. rewrite (Hex c Hc Hd).
    destruct Ha as [Ha|[d Ha]];
      [by rewrite (is_space_neq c a) | by rewrite (digit_neq c a d)]. }
  destruct num as [n|], (is_space a) eqn:Ha, (digit_of a) as [d|] eqn:Hd;
    try done; apply Hrec; eauto.
Qed.

Lemma getentry_x c cd :
  getentry c = Some cd →
  Ascii.eqb "x" c = match cd with Pad => true | _ => false end.
Proof.
  unfold getentry.
  repeat match goal with
         | |- context [Ascii.eqb c ?y] =>
             destruct (Ascii.eqb_spec c y) as [->|?]; [by intros [= <-] | ]
         end.
  done.
Qed.

Lemma getentry_s c cd :
  getentry c = Some cd →
  Ascii.eqb "s" c = match cd with Str => true | _ => false end.
Proof.
  unfold getentry.
  repeat match goal with
         | |- context [Ascii.eqb c ?y] =>
             destruct (Ascii.eqb_spec c y) as [->|?]; [by intros [= <-] | ]
         end.
  done.
Qed.

Lemma one_item_scan tc it : one_item tc = Some it → scan None tc = Ok [it].
Proof.
  unfold one_item. destruct (scan None tc) as [[|i [|]]|]; try done.
  destruct (code i); [by intros [= ->] .. |].
  destruct (Nat.eqb _ _); [by intros [= ->] | done].
Qed.

Lemma one_item_count tc it sg w :
  one_item tc = Some it → code it = IntC sg w → count it = 1%nat.
Proof.
  unfold one_item. destruct (scan None tc) as [[|i [|]]|]; try done.
  destruct (code i) eqn:Ec; [by intros [= <-]; congruence .. |].
  destruct (Nat.eqb_spec (count i) 1); [by intros [= <-] | done].
Qed.

Lemma field_item_filler f it :
  field_item f = Some it →
  is_filler f = match code it with Pad => true | _ => false end.
Proof.
  unfold field_item, is_filler, char_in. destruct (f_type f) as [tc|]; [|done].
  intros Hi. apply one_item_scan, scan_single in Hi as (c' & Hc' & Hex).
  rewrite Hex by done. by apply getentry_x.
Qed.

Lemma field_item_string f it :
  field_item f = Some it →
  is_string f = match code it with Str => true | _ => false end.
Proof.
  unfold field_item, is_string, char_in. destruct (f_type f) as [tc|]; [|done].
  intros Hi. apply one_item_scan, scan_single in Hi as (c' & Hc' & Hex).
  rewrite Hex by done. by apply getentry_s.
Qed.

(** ** The metaclass *)

Lemma set_up_attributes_ok fields : ∀ d,
  forallb has_type fields = true →
  StructMeta.set_up_attributes fields d
  = Ok (foldl (λ d f, if negb (is_filler f) then <[f_name f := f]> d else d) d fields).
Proof.
  induction fields as [|f fields IH]; intros d; simpl; [done|].
  intros [Hf Hfs]%andb_prop. unfold has_type in Hf. unfold is_filler.
  destruct (f_type f) as [tc|]; [|done]. simpl. rewrite IH by done.
  by destruct (existsb _ _).
Qed.

Lemma set_up_attributes_raise fields : ∀ d,
  forallb has_type fields = false →
  StructMeta.set_up_attributes fields d = Raise TypeError.
Proof.
  induction fields as [|f fields IH]; intros d; simpl; [done|].
  unfold has_type at 1. destruct (f_type f) as [tc|]; [|done]. simpl.
  intros Hfs. by apply IH.
Qed.

Lemma keys_of_ok fields :
  forallb has_type fields = true →
  StructMeta.keys_of fields = Ok (key_names fields).
Proof.
  unfold key_names.
  induction fields as [|f fields IH]; simpl; [done|].
  intros [Hf Hfs]%andb_prop. unfold has_type in Hf. unfold is_filler.
  destruct (f_type f) as [tc|]; [|done]. simpl. rewrite IH by done. simpl.
  by destruct (existsb _ _).
Qed.

Lemma new_typed name fields :
  forallb has_type fields = true →
  StructMeta.__new__ name fields
  = rbind (scan None (StructMeta.join_types fields)) (λ its,
      Ok {| cls_name := name; __fields__ := fields;
            properties := props_of fields; _keys := key_names fields;
            _struct := {| format := String "<" (StructMeta.join_types fields);
                          items := its |} |}).
Proof.
  intros Ht. unfold StructMeta.__new__, Struct_le.
  rewrite set_up_attributes_ok, keys_of_ok by done. simpl.
  by destruct (scan None _).
Qed.

Lemma new_untyped name fields :
  forallb has_type fields = false →
  StructMeta.__new__ name fields = Raise TypeError.
Proof.
  intros Ht. unfold StructMeta.__new__.
  by rewrite set_up_attributes_raise.
Qed.

Lemma new_inv name fields cls :
  StructMeta.__new__ name fields = Ok cls →
  forallb has_type fields = true ∧
  scan None (StructMeta.join_types fields) = Ok (items (_struct cls)) ∧
  __fields__ cls = fields ∧ properties cls = props_of fields ∧
  _keys cls = key_names fields.
Proof.
  destruct (forallb has_type fields) eqn:Ht.
  - rewrite new_typed by done.
    destruct (scan None _) as [its|]; [|done]. simpl. by intros [= <-].
  - by rewrite new_untyped.
Qed.

(** Lookup in a table filled by successive insertions. *)
Lemma lookup_foldl_insert {V} (keep : FieldSpec → bool) (val : FieldSpec → V)
    (l : list FieldSpec) (d : gmap Name V) (k : Name) (v : V) :
  foldl (λ d f, if keep f then <[f_name f := val f]> d else d) d l !! k = Some v →
  d !! k = Some v ∨ ∃ f, In f l ∧ keep f = true ∧ f_name f = k ∧ val f = v.
Proof.
  revert v. induction l as [|a l IH] using rev_ind; intros v; simpl; [by left|].
  rewrite foldl_app. simpl. destruct (keep a) eqn:Ka.
  - destruct (decide (f_name a = k)) as [<-|Hne].
    + rewrite lookup_insert_eq. intros [= <-]. right. exists a.
      rewrite in_app_iff. simpl. naive_solver.
    + rewrite lookup_insert_ne by done. intros [?|(f & Hf & Hr)]%IH; [by left|].
      right. exists f. split; [apply in_app_iff; by left | done].
  - intros [?|(f & Hf & Hr)]%IH; [by left|].
    right. exists f. split; [apply in_app_iff; by left | done].
Qed.

Lemma lookup_foldl_insert_None {V} (keep : FieldSpec → bool) (val : FieldSpec → V)
    (l : list FieldSpec) (d : gmap Name V) (k : Name) :
  (∀ f, In f l → keep f = true → f_name f ≠ k) →
  foldl (λ d f, if keep f then <[f_name f := val f]> d else d) d l !! k = d !! k.
Proof.
  induction l as [|a l IH] using rev_ind; intros Hk; simpl; [done|].
  rewrite foldl_app. simpl.
  assert (Hl : ∀ f, In f l → keep f = true → f_name f ≠ k).
  { intros f Hf. apply Hk. rewrite in_app_iff. by left. }
  destruct (keep a) eqn:Ka; [|by apply IH].
  rewrite lookup_insert_ne; [by apply IH|].
  apply Hk; [|done]. rewrite in_app_iff. simpl. eauto.
Qed.

Lemma lookup_foldl_insert_Some {V} (keep : FieldSpec → bool) (val : FieldSpec → V)
    (l : list FieldSpec) (d : gmap Name V) (f : FieldSpec) :
  In f l → keep f = true →
  (∀ f', In f' l → keep f' = true → f_name f' = f_name f → val f' = val f) →
  foldl (λ d f, if keep f then <[f_name f := val f]> d else d) d l !! f_name f
  = Some (val f).
Proof.
  induction l as [|a l IH] using rev_ind; intros Hin Kf Hsame; [done|].
  rewrite foldl_app. simpl.
  assert (Hl : ∀ f', In f' l → keep f' = true → f_name f' = f_name f → val f' = val f).
  { intros f' Hf'. apply Hsame. rewrite in_app_iff. by left. }
  assert (Ha : In a (l ++ [a])) by (rewrite in_app_iff; simpl; eauto).
  apply in_app_iff in Hin as [Hin|[->|[]]].
  - destruct (keep a) eqn:Ka; [|by apply IH].
    destruct (decide (f_name a = f_name f)) as [Heq|Hne].
    + rewrite Heq, lookup_insert_eq. f_equal. by apply Hsame.
    + rewrite lookup_insert_ne by done. by apply IH.
  - by rewrite Kf, lookup_insert_eq.
Qed.

Lemma NoDup_map_inj {A B} (g : A → B) (l : list A) (x y : A) :
  NoDup (map g l) → In x l → In y l → g x = g y → x = y.
Proof.
  induction l as [|a l IH]; simpl; [done|].
  intros [Ha Hl]%NoDup_cons [->|Hx] [->|Hy] Hg; try done.
  - destruct Ha. rewrite Hg. apply list_elem_of_In, in_map, Hy.
  - destruct Ha. rewrite <- Hg. apply list_elem_of_In, in_map, Hx.
  - by apply IH.
Qed.

Lemma in_key_names fields k :
  k ∈ key_names fields ↔ ∃ f, In f fields ∧ is_filler f = false ∧ f_name f = k.
Proof.
  unfold key_names. rewrite list_elem_of_In, in_map_iff. split.
  - intros (f & <- & [Hf Hk]%filter_In). exists f.
    by destruct (is_filler f).
  - intros (f & Hf & Hk & <-). exists f. split; [done|].
    apply filter_In. by rewrite Hk.
Qed.

Lemma default_is_Some fields f :
  In f fields → is_Some (MapStruct.default_values fields !! f_name f).
Proof.
  intros Hf. unfold MapStruct.default_values.
  induction fields as [|a l IH] using rev_ind; [done|].
  rewrite foldl_app. simpl.
  destruct (decide (f_name a = f_name f)) as [->|Hne].
  - rewrite lookup_insert_eq. eauto.
  - rewrite lookup_insert_ne by done. apply IH.
    apply in_app_iff in Hf as [?|[->|[]]]; [done | by destruct Hne].
Qed.

(** ** Facts about a class compiled from well-formed fields *)

Section compiled.
Variables (name : string) (fields : list FieldSpec) (cls : StructClass).
Hypothesis Hnew : StructMeta.__new__ name fields = Ok cls.
Hypothesis Hwf : wf_fields fields = true.

Lemma wf_types : forallb wf_type fields = true.
Proof. unfold wf_fields in Hwf. by repeat apply andb_prop in Hwf as [Hwf ?]. Qed.

Lemma wf_nodup : NoDup (key_names fields).
Proof.
  unfold wf_fields in Hwf. apply andb_prop in Hwf as [[_ H]%andb_prop _].
  by apply bool_decide_eq_true in H.
Qed.

Lemma wf_filler_name f :
  In f fields → is_filler f = true → f_name f ∉ key_names fields.
Proof.
  unfold wf_fields in Hwf. apply andb_prop in Hwf as [_ H].
  rewrite forallb_forall in H. intros Hf Hx. specialize (H f Hf).
  rewrite Hx in H. by apply bool_decide_eq_true in H.
Qed.

Lemma wf_key_name f :
  In f fields → is_filler f = false → is_Some (f_name f).
Proof.
  unfold wf_fields in Hwf. apply andb_prop in Hwf as [_ H].
  rewrite forallb_forall in H. intros Hf Hx. specialize (H f Hf).
  rewrite Hx in H. by apply bool_decide_eq_true in H.
Qed.

Lemma key_field_inj f f' :
  In f fields → In f' fields → is_filler f = false → is_filler f' = false →
  f_name f = f_name f' → f = f'.
Proof.
  intros Hf Hf' Hx Hx' Hn.
  apply (NoDup_map_inj f_name (List.filter (λ f, negb (is_filler f)) fields));
    [apply wf_nodup | apply filter_In | apply filter_In | done];
    by rewrite ?Hx, ?Hx'.
Qed.

Lemma cls_fields : __fields__ cls = fields.
Proof. by destruct (new_inv _ _ _ Hnew) as (_ & _ & ? & _). Qed.

Lemma cls_keys : _keys cls = key_names fields.
Proof. by destruct (new_inv _ _ _ Hnew) as (_ & _ & _ & _ & ?). Qed.

Lemma cls_typed : forallb has_type fields = true.
Proof. by destruct (new_inv _ _ _ Hnew) as (? & _). Qed.

Lemma prop_lookup f :
  In f fields → is_filler f = false → properties cls !! f_name f = Some f.
Proof.
  intros Hf Hx. destruct (new_inv _ _ _ Hnew) as (_ & _ & _ & -> & _).
  unfold props_of.
  apply (lookup_foldl_insert_Some (λ f, negb (is_filler f)) id);
    [done | by rewrite Hx |].
  intros f' Hf' Hx' Hn. simpl. symmetry. apply key_field_inj; try done.
  by destruct (is_filler f').
Qed.

Lemma prop_inv k f :
  properties cls !! k = Some f →
  In f fields ∧ is_filler f = false ∧ f_name f = k.
Proof.
  destruct (new_inv _ _ _ Hnew) as (_ & _ & _ & -> & _).
  unfold props_of.
  intros [H|(f' & Hf' & Hx' & Hn & Hv)]%(lookup_foldl_insert _ id); [done|].
  simpl in Hv. subst f'. by destruct (is_filler f).
Qed.

Lemma default_lookup f :
  In f fields → is_filler f = false →
  MapStruct.default_values fields !! f_name f = Some (f_value f).
Proof.
  intros Hf Hx. unfold MapStruct.default_values.
  apply (lookup_foldl_insert_Some (λ _, true) f_value); [done..|].
  intros f' Hf' _ Hn. destruct (is_filler f') eqn:Hx'.
  - destruct (wf_filler_name f' Hf' Hx'). rewrite Hn.
    apply in_key_names. eauto.
  - f_equal. by apply key_field_inj.
Qed.

End compiled.

Lemma ex_cls_compiled : StructMeta.__new__ "Ex" ex_fields = Ok ex_cls.
Proof. vm_compute. reflexivity. Qed.

Lemma ex_fields_wf : wf_fields ex_fields = true.
Proof. vm_compute. reflexivity. Qed.

(** ** Size of the packed form *)

(** C4: when [pack] returns, the buffer has the compiled size of the
    type, whatever the field values are. *)
Theorem pack_length (cls : StructClass) (vals : gmap Name Value) (b : pybytes) :
  MapStruct.pack cls vals = Ok b → length b = MapStruct.size cls.
Proof.
  unfold MapStruct.pack, MapStruct.size, size_of.
  destruct (MapStruct.packs cls _ vals) as [ps|]; [|done]. simpl.
  apply length_struct_pack.
Qed.

Lemma pack_length_witness :
  MapStruct.pack ex_cls ex_long = Ok (pyb "TOOL" ++ [x05; x00; x00; x00])
  ∧ length (pyb "TOOL" ++ [x05; x00; x00; x00]) = MapStruct.size ex_cls.
Proof.
  assert (H : MapStruct.pack ex_cls ex_long = Ok (pyb "TOOL" ++ [x05; x00; x00; x00]))
    by (vm_compute; reflexivity).
  split; [exact H | exact (pack_length ex_cls ex_long _ H)].
Defined.

(** ** Unpacking a buffer of the wrong size *)

(** C9: with a buffer whose length differs from the size of the type,
    [unpack] raises before any setter runs: the value mapping after the
    failed call is the mapping before it. *)
Theorem unpack_wrong_size_atomic (cls : StructClass) (b : pybytes)
    (vals : gmap Name Value) :
  length b ≠ MapStruct.size cls →
  ∃ e, MapStruct.unpack cls (VBytes b) vals = (vals, Raise e).
Proof. intros H. eexists. by apply unpack_bad_size. Qed.

Lemma unpack_wrong_size_atomic_witness :
  ∃ e, MapStruct.unpack ex_cls (VBytes (pyb "AB")) ex_long = (ex_long, Raise e).
Proof.
  apply (unpack_wrong_size_atomic ex_cls (pyb "AB") ex_long).
  vm_compute. lia.
Defined.

(** ** Padding and stripping of strings *)

Lemma zpad_str (s : pystr) :
  forallb (λ c, c <? 256)%N s = true →
  zpad (VStr s)
  = Ok (VBytes (take 8 (map byte_of_N s) ++ replicate (8 - length s) x00)).
Proof.
  intros Hs. unfold zpad, six_b. rewrite Hs. simpl.
  unfold struct_pack, pack_item. simpl.
  by rewrite app_nil_r, length_map.
Qed.

Lemma decode_ascii_pad (s : pystr) (k : nat) :
  is_text s = true →
  decode_ascii_ignore (map byte_of_N s ++ replicate k x00)
  = s ++ replicate k 0%N.
Proof.
  unfold decode_ascii_ignore, is_text. intros Hs.
  induction s as [|c s IH]; simpl.
  - induction k as [|k IHk]; simpl; [done | by rewrite IHk].
  - simpl in Hs. apply andb_prop in Hs as [Hc Hs].
    apply andb_prop in Hc as [Hc0 Hc1]. apply N.ltb_lt in Hc1.
    rewrite to_N_byte_of_N by lia.
    destruct (N.ltb_spec c 128); [|lia]. simpl.
    by rewrite to_N_byte_of_N, IH by (done || lia).
Qed.

Lemma strip_pad (s : pystr) (k : nat) :
  is_text s = true →
  (if contains_nul (s ++ replicate k 0%N)
   then take (index_nul (s ++ replicate k 0%N)) (s ++ replicate k 0%N)
   else s ++ replicate k 0%N) = s.
Proof.
  unfold is_text, contains_nul. intros Hs.
  induction s as [|c s IH]; simpl.
  - by destruct k.
  - simpl in Hs. apply andb_prop in Hs as [Hc Hs].
    apply andb_prop in Hc as [Hc0 Hc1]. destruct c as [|p]; [done|].
    simpl. specialize (IH Hs).
    destruct (existsb _ _); simpl; by rewrite IH.
Qed.

Lemma is_text_encodable (s : pystr) :
  is_text s = true → forallb (λ c, c <? 256)%N s = true.
Proof.
  unfold is_text. rewrite !forallb_forall. intros H c Hc.
  specialize (H c Hc). apply andb_prop in H as [_ H].
  apply N.ltb_lt in H. apply N.ltb_lt. lia.
Qed.

Lemma zstrip_pad (s : pystr) (k : nat) :
  is_text s = true →
  zstrip (VBytes (map byte_of_N s ++ replicate k x00)) = Ok (VStr s).
Proof.
  intros Hs. unfold zstrip. rewrite decode_ascii_pad by done.
  pose proof (strip_pad s k Hs) as H.
  destruct (contains_nul _); by rewrite H.
Qed.

(** The result of [zstrip] never holds a NUL. *)
Lemma take_index_nul (s : pystr) :
  contains_nul (take (index_nul s) s) = false.
Proof.
  unfold contains_nul. induction s as [|c s IH]; simpl; [done|].
  by destruct c.
Qed.

Lemma zstrip_no_nul (v w : Value) :
  zstrip v = Ok w → ∃ s, w = VStr s ∧ contains_nul s = false.
Proof.
  unfold zstrip.
  assert (H : ∀ cs, (if contains_nul cs
                     then Ok (VStr (take (index_nul cs) cs))
                     else Ok (VStr cs)) = Ok w →
                    ∃ s, w = VStr s ∧ contains_nul s = false).
  { intros cs. destruct (contains_nul cs) eqn:E; intros [= <-]; eexists;
      (split; [done|]); [apply take_index_nul | done]. }
  destruct v; try done; apply H.
Qed.




(** ** Errors of schema compilation *)

Lemma has_type_false fields f :
  In f fields → f_type f = None → forallb has_type fields = false.
Proof.
  intros Hf Hn. destruct (forallb has_type fields) eqn:E; [|done].
  rewrite forallb_forall in E. specialize (E f Hf).
  unfold has_type in E. by rewrite Hn in E.
Qed.

Lemma has_type_false_inv fields :
  forallb has_type fields = false → ∃ f, In f fields ∧ f_type f = None.
Proof.
  induction fields as [|a l IH]; simpl; [done|].
  unfold has_type at 1. destruct (f_type a) eqn:Ea.
  - intros (f & Hf & Hn)%IH. eauto.
  - intros _. eauto.
Qed.

(** C2: a field list with a virtual field (a field without type code)
    does not compile: the membership test ['x' not in f[1]] of
    [StructMeta.__new__] raises [TypeError] on the missing type code. *)
Theorem new_raises_on_virtual_field (name : string) (fields : list FieldSpec)
    (f : FieldSpec) :
  In f fields → f_type f = None →
  StructMeta.__new__ name fields = Raise TypeError.
Proof. intros Hf Hn. apply new_untyped. by apply (has_type_false fields f). Qed.

Lemma new_raises_on_virtual_field_witness :
  StructMeta.__new__ "V" virtual_fields = Raise TypeError.
Proof.
  apply (new_raises_on_virtual_field "V" virtual_fields (virtual "v" (VInt 0))).
  - simpl. right. left. reflexivity.
  - reflexivity.
Defined.

(** An empty type code compiles, but its name stays in [_keys]: [pack]
    then hands one value too many to [Struct.pack], and [unpack] gives
    the first stored value to the field without bytes. *)
Lemma empty_type_code_misaligned :
  ∃ cls, StructMeta.__new__ "E" empty_code_fields = Ok cls
    ∧ _keys cls = [Some "v"; Some "n"]%string
    ∧ MapStruct.size cls = 2%nat
    ∧ MapStruct.pack cls (MapStruct.default_values empty_code_fields)
      = Raise (struct_error ArgCount)
    ∧ ∃ vals, MapStruct.unpack cls (VBytes [x05; x00])
                (MapStruct.default_values empty_code_fields) = (vals, Ok ())
        ∧ vals !! Some "v"%string = Some (VInt 5)
        ∧ vals !! Some "n"%string = Some (VInt 7).
Proof.
  eexists. split; [vm_compute; reflexivity|].
  repeat split; try (vm_compute; reflexivity).
  eexists. split; [vm_compute; reflexivity|].
  split; vm_compute; reflexivity.
Qed.

Lemma list_ascii_append (a b : string) :
  list_ascii_of_string (String.append a b)
  = list_ascii_of_string a ++ list_ascii_of_string b.
Proof. induction a as [|c a IH]; simpl; [done | by rewrite IH]. Qed.

Lemma in_join_types fields f tc c :
  In f fields → f_type f = Some tc → In c (list_ascii_of_string tc) →
  In c (list_ascii_of_string (StructMeta.join_types fields)).
Proof.
  intros Hf Ht Hc. induction fields as [|a l IH]; simpl; [done|].
  destruct Hf as [->|Hf].
  - rewrite Ht. destruct tc; [done|]. simpl truthy. cbv iota.
    rewrite list_ascii_append. apply in_app_iff. by left.
  - specialize (IH Hf). destruct (truthy (f_type a)); [|done].
    rewrite list_ascii_append. apply in_app_iff. by right.
Qed.

Lemma unsupported_char_bad c :
  unsupported_char c = true →
  is_space c = false ∧ digit_of c = None ∧ getentry c = None.
Proof.
  unfold unsupported_char. intros H. apply negb_true_iff in H.
  apply orb_false_iff in H as [H Hc]. apply orb_false_iff in H as [Hs Hd].
  repeat split; [done | by destruct (digit_of c) |].
  simpl in Hc. unfold getentry.
  repeat match goal with
         | |- context [Ascii.eqb c ?y] =>
             destruct (Ascii.eqb_spec c y) as [->|?]; [done|]
         end.
  done.
Qed.

(** C8 (as stated) fails: the type code ["4"] is no format on its own,
    but the class compiles, and the defect shows when [pack] is called. *)
Lemma malformed_code_compiles_counterexample :
  malformed (Some "4"%string) = true
  ∧ ∃ cls, StructMeta.__new__ "T" count_fields = Ok cls
      ∧ MapStruct.pack cls (MapStruct.__init__ cls [] []).1
        = Raise (struct_error ArgCount).
Proof. split; [reflexivity|]. eexists. split; vm_compute; reflexivity. Qed.

(** C8, amended: compilation fails whenever a type code holds a
    character that is no format character, digit or white space.  (A
    type code that is no format alone but becomes one together with its
    neighbours is accepted.) *)
Theorem new_fails_on_bad_format (name : string) (fields : list FieldSpec)
    (f : FieldSpec) (tc : string) (c : ascii) :
  In f fields → f_type f = Some tc →
  In c (list_ascii_of_string tc) → unsupported_char c = true →
  is_ok (StructMeta.__new__ name fields) = false.
Proof.
  intros Hf Ht Hc (Hs & Hd & He)%unsupported_char_bad.
  destruct (forallb has_type fields) eqn:Hty.
  - rewrite new_typed by done. unfold Struct_le.
    pose proof (scan_bad_char c (StructMeta.join_types fields) None
                  (in_join_types fields f tc c Hf Ht Hc) Hs Hd He) as H.
    by destruct (scan None _).
  - by rewrite new_untyped.
Qed.

Lemma new_fails_on_bad_format_witness :
  is_ok (StructMeta.__new__ "T" [field "a" "h" (VInt 0); field "b" "4z" VNone])
  = false.
Proof.
  apply (new_fails_on_bad_format "T"
           [field "a" "h" (VInt 0); field "b" "4z" VNone]
           (field "b" "4z" VNone) "4z"%string "z"%char).
  - simpl. right. left. reflexivity.
  - reflexivity.
  - simpl. right. left. reflexivity.
  - reflexivity.
Defined.

(** ** Setters *)

Lemma for_each_preserves {A : Type} (P : gmap Name Value → Prop)
    (body : A → M unit) (l : list A) :
  (∀ a vals, P vals → P (body a vals).1) →
  ∀ vals, P vals → P (for_each body l vals).1.
Proof.
  intros Hbody. induction l as [|a l IH]; intros vals HP; simpl; [done|].
  specialize (Hbody a vals HP).
  destruct (body a vals) as [vals' [[]|e]]; simpl in *; [by apply IH | done].
Qed.

Section setters.
Variables (name : string) (fields : list FieldSpec) (cls : StructClass).
Hypothesis Hnew : StructMeta.__new__ name fields = Ok cls.
Hypothesis Hwf : wf_fields fields = true.

Lemma typed_field f : In f fields → ∃ tc, f_type f = Some tc.
Proof.
  intros Hf. pose proof (cls_typed name fields cls Hnew) as Ht.
  rewrite forallb_forall in Ht. specialize (Ht f Hf).
  unfold has_type in Ht. destruct (f_type f); [eauto | done].
Qed.

Lemma field_has_item f : In f fields → ∃ it, field_item f = Some it.
Proof.
  intros Hf. destruct (typed_field f Hf) as [tc Ht].
  pose proof (wf_types fields Hwf) as Hw.
  rewrite forallb_forall in Hw. specialize (Hw f Hf).
  unfold wf_type in Hw. unfold field_item. rewrite Ht in *.
  apply bool_decide_eq_true in Hw as [it Hit]. eauto.
Qed.

Lemma string_not_filler f :
  In f fields → is_string f = true → is_filler f = false.
Proof.
  intros Hf Hs. destruct (field_has_item f Hf) as [it Hit].
  rewrite (field_item_string f it Hit) in Hs.
  rewrite (field_item_filler f it Hit). by destruct (code it).
Qed.

Lemma set_field f value vals :
  In f fields →
  StructMeta._set f value vals
  = match store f value with
    | Ok v => (<[f_name f := v]> vals, Ok ())
    | Raise e => (vals, Raise e)
    end.
Proof.
  intros Hf. destruct (typed_field f Hf) as [tc Ht].
  unfold StructMeta._set, store, is_string, char_in. rewrite Ht.
  by destruct (existsb _ _).
Qed.

(** [setattr] on the name of a non-filler field runs its setter. *)
Lemma setattr_field f value vals :
  In f fields → is_filler f = false →
  setattr cls (f_name f) value vals
  = match store f value with
    | Ok v => (<[f_name f := v]> vals, Ok ())
    | Raise e => (vals, Raise e)
    end.
Proof.
  intros Hf Hx. unfold setattr.
  destruct (wf_key_name fields Hwf f Hf Hx) as [k Hk].
  rewrite (prop_lookup name fields cls Hnew Hwf f Hf Hx), Hk, <- Hk.
  by apply set_field.
Qed.

(** [setattr] writes nothing, or one name of [_keys]. *)
Lemma setattr_cases key value vals :
  setattr cls key value vals = (vals, Raise TypeError)
  ∨ setattr cls key value vals = (vals, Ok ())
  ∨ ∃ f, In f fields ∧ is_filler f = false ∧ f_name f = key
      ∧ setattr cls key value vals
        = match store f value with
          | Ok v => (<[key := v]> vals, Ok ())
          | Raise e => (vals, Raise e)
          end.
Proof.
  unfold setattr. destruct key as [k|]; [|by left].
  destruct (properties cls !! Some k) as [f|] eqn:Ep; [|by right; left].
  right; right. exists f.
  destruct (prop_inv name fields cls Hnew (Some k) f Ep) as (Hf & Hx & Hk).
  repeat split; try done. rewrite <- Hk. by apply set_field.
Qed.

Lemma store_no_nul f v w :
  is_string f = true → store f v = Ok w → no_nul w = true.
Proof.
  unfold store. intros ->. intros (s & -> & Hs)%zstrip_no_nul.
  simpl. by rewrite Hs.
Qed.

Lemma setattr_clean key value vals :
  strings_clean fields vals →
  strings_clean fields (setattr cls key value vals).1.
Proof.
  intros Hc.
  destruct (setattr_cases key value vals)
    as [->|[->|(f & Hf & Hx & Hk & ->)]]; try done.
  destruct (store f value) as [w|] eqn:Ew; [|done]. simpl.
  intros g v Hg Hs. destruct (decide (f_name g = key)) as [Hgk|Hgk].
  - rewrite Hgk, lookup_insert_eq. intros [= <-].
    assert (g = f) as ->.
    { apply (key_field_inj fields Hwf); try done; [|congruence].
      by apply string_not_filler. }
    by apply (store_no_nul f value).
  - rewrite lookup_insert_ne by done. by apply Hc.
Qed.

Lemma unpack_clean data vals :
  strings_clean fields vals →
  strings_clean fields (MapStruct.unpack cls data vals).1.
Proof.
  intros Hc. unfold MapStruct.unpack.
  destruct (struct_unpack _ data) as [vs|]; [|done].
  apply for_each_preserves; [|done].
  intros kv vals'. apply setattr_clean.
Qed.

Lemma init_clean args kwargs :
  (∀ f, In f fields → is_string f = true → no_nul (f_value f) = true) →
  strings_clean fields (MapStruct.__init__ cls args kwargs).1.
Proof.
  intros Hd.
  assert (H0 : strings_clean fields (MapStruct.default_values fields)).
  { intros f v Hf Hs.
    rewrite (default_lookup fields Hwf f Hf (string_not_filler f Hf Hs)).
    intros [= <-]. by apply Hd. }
  unfold MapStruct.__init__. rewrite (cls_fields name fields cls Hnew).
  destruct (od_get (Some "self"%string) _); [done|].
  destruct (od_get _ _) as [data|]; [by apply unpack_clean|].
  apply for_each_preserves; [|done].
  intros kv vals Hc. unfold MapStruct.init_body.
  destruct (bool_decide _); [|done]. by apply setattr_clean.
Qed.

End setters.

(** ** No NUL in string fields *)

(** C10: if no string-typed field has a NUL in its declared default,
    then construction, assignment through a setter and [unpack] all leave
    every string-typed field with a value without NUL (also when they
    raise half-way). *)
Theorem string_fields_hold_no_nul (name : string) (fields : list FieldSpec)
    (cls : StructClass) :
  StructMeta.__new__ name fields = Ok cls →
  wf_fields fields = true →
  (∀ f, In f fields → is_string f = true → no_nul (f_value f) = true) →
  (∀ args kwargs,
     strings_clean fields (MapStruct.__init__ cls args kwargs).1)
  ∧ (∀ key value vals, strings_clean fields vals →
       strings_clean fields (setattr cls key value vals).1)
  ∧ (∀ data vals, strings_clean fields vals →
       strings_clean fields (MapStruct.unpack cls data vals).1).
Proof.
  intros Hnew Hwf Hd. repeat split.
  - intros args kwargs. by apply (init_clean name).
  - intros key value vals. by apply (setattr_clean name).
  - intros data vals. by apply (unpack_clean name).
Qed.

Lemma string_fields_hold_no_nul_witness :
  strings_clean ex_fields
    (MapStruct.__init__ ex_cls [VStr (py "A" ++ [0%N] ++ py "B")] []).1.
Proof.
  refine (proj1 (string_fields_hold_no_nul "Ex" ex_fields ex_cls _ _ _) _ _).
  - vm_compute. reflexivity.
  - vm_compute. reflexivity.
  - intros f [<-|[<-|[<-|[]]]] H; vm_compute; reflexivity.
Defined.

(** ** Ordered dictionaries *)

Lemma od_get_cons k k' v d :
  od_get k ((k', v) :: d) = if decide (k' = k) then Some v else od_get k d.
Proof.
  unfold od_get. simpl. destruct (decide (k' = k)) as [->|Hne].
  - by rewrite bool_decide_eq_true_2.
  - by rewrite bool_decide_eq_false_2.
Qed.

Lemma od_get_set k k' v d :
  od_get k (od_set k' v d) = if decide (k' = k) then Some v else od_get k d.
Proof.
  induction d as [|[k0 v0] d IH]; simpl.
  - by rewrite od_get_cons.
  - destruct (decide (k' = k0)) as [->|Hne]; rewrite !od_get_cons.
    + by destruct (decide (k0 = k)).
    + rewrite IH. destruct (decide (k0 = k)) as [->|]; [|done].
      by rewrite decide_False.
Qed.

Lemma od_get_None k d : k ∉ d.*1 → od_get k d = None.
Proof.
  induction d as [|[k0 v0] d IH]; simpl; [done|].
  rewrite not_elem_of_cons, od_get_cons. intros [Hne Hd].
  rewrite decide_False by done. by apply IH.
Qed.

Lemma od_set_keys k v d x : x ∈ (od_set k v d).*1 ↔ x = k ∨ x ∈ d.*1.
Proof.
  induction d as [|[k0 v0] d IH]; simpl.
  - rewrite list_elem_of_singleton, elem_of_nil. tauto.
  - destruct (decide (k = k0)) as [->|Hne]; simpl;
      rewrite !elem_of_cons; [tauto | rewrite IH; tauto].
Qed.

Lemma od_set_NoDup k v d : NoDup d.*1 → NoDup (od_set k v d).*1.
Proof.
  induction d as [|[k0 v0] d IH]; simpl.
  - intros _. apply NoDup_singleton.
  - rewrite NoDup_cons. intros [Hk0 Hd].
    destruct (decide (k = k0)) as [->|Hne]; simpl; rewrite NoDup_cons.
    + done.
    + split; [|by apply IH]. rewrite od_set_keys. intros [?|?]; [congruence | done].
Qed.

Lemma od_update_NoDup d l : NoDup d.*1 → NoDup (od_update d l).*1.
Proof.
  unfold od_update. revert d. induction l as [|[k v] l IH]; intros d Hd; simpl;
    [done|]. by apply IH, od_set_NoDup.
Qed.

Lemma lookup_last_foldl k l acc :
  foldl (λ acc kv, if decide (kv.1 = k) then Some kv.2 else acc) acc l
  = match lookup_last k l with Some v => Some v | None => acc end.
Proof.
  unfold lookup_last. induction l as [|[k0 v0] l IH] using rev_ind; [done|].
  rewrite !foldl_app. simpl. by destruct (decide (k0 = k)).
Qed.

Lemma od_get_update k d l :
  od_get k (od_update d l)
  = match lookup_last k l with Some v => Some v | None => od_get k d end.
Proof.
  unfold od_update, lookup_last.
  induction l as [|[k0 v0] l IH] using rev_ind; [done|].
  rewrite !foldl_app. simpl. rewrite od_get_set, IH.
  by destruct (decide (k0 = k)).
Qed.

Lemma lookup_last_NoDup k l : NoDup l.*1 → lookup_last k l = od_get k l.
Proof.
  induction l as [|[k0 v0] l IH]; simpl; [done|].
  rewrite NoDup_cons. intros [Hk0 Hl]. unfold lookup_last. simpl.
  rewrite lookup_last_foldl, od_get_cons, (IH Hl).
  destruct (decide (k0 = k)) as [->|]; [|by destruct (od_get k l)].
  by rewrite od_get_None.
Qed.

Lemma zip_keys_elem {A} (ks : list Name) (vs : list A) x :
  x ∈ (zip ks vs).*1 → x ∈ ks.
Proof.
  revert vs. induction ks as [|k ks IH]; intros [|v vs]; simpl;
    rewrite ?elem_of_nil, ?elem_of_cons; try done.
  intros [?|?]; [by left | right; by apply (IH vs)].
Qed.

Lemma zip_keys_NoDup {A} (ks : list Name) (vs : list A) :
  NoDup ks → NoDup (zip ks vs).*1.
Proof.
  revert vs. induction ks as [|k ks IH]; intros [|v vs]; simpl;
    rewrite ?NoDup_cons; try (intros; apply NoDup_nil_2).
  intros [Hk Hks]. split; [|by apply IH].
  intros Hin. by apply Hk, (zip_keys_elem ks vs).
Qed.

Lemma od_get_zip (ks : list Name) (vs : list Value) i k :
  NoDup ks → ks !! i = Some k → od_get k (zip ks vs) = vs !! i.
Proof.
  revert vs i. induction ks as [|k0 ks IH]; intros vs i; [done|].
  rewrite NoDup_cons. intros [Hk0 Hks].
  destruct i as [|i]; simpl.
  - intros [= ->]. destruct vs as [|v vs]; simpl; [done|].
    by rewrite od_get_cons, decide_True.
  - intros Hi. assert (k0 ≠ k).
    { intros ->. by apply Hk0, (list_elem_of_lookup_2 ks i). }
    destruct vs as [|v vs]; simpl; [done|].
    rewrite od_get_cons, decide_False by done. by apply IH.
Qed.

Lemma lookup_map {A B} (g : A → B) (l : list A) (i : nat) :
  map g l !! i = g <$> l !! i.
Proof. revert i. induction l as [|a l IH]; intros [|i]; simpl; auto. Qed.

(** ** Construction from values *)

Section construction.
Variables (name : string) (fields : list FieldSpec) (cls : StructClass).
Hypothesis Hnew : StructMeta.__new__ name fields = Ok cls.
Hypothesis Hwf : wf_fields fields = true.

Lemma for_each_assign (l : list (Name * Value)) :
  NoDup l.*1 →
  (∀ f v, In f fields → is_filler f = false →
     od_get (f_name f) l = Some v → is_ok (store f v) = true) →
  ∀ vals, ∃ vals',
    for_each (MapStruct.init_body cls) l vals = (vals', Ok ())
    ∧ (∀ f, In f fields → is_filler f = false →
         vals' !! f_name f
         = match od_get (f_name f) l with
           | Some v => match store f v with Ok w => Some w | Raise _ => None end
           | None => vals !! f_name f
           end)
    ∧ (∀ n, n ∉ key_names fields → vals' !! n = vals !! n).
Proof.
  induction l as [|[k v] l IH]; simpl.
  { intros _ _ vals. exists vals. by repeat split. }
  rewrite NoDup_cons. intros [Hk Hl] Hok vals.
  assert (Hok' : ∀ f v', In f fields → is_filler f = false →
            od_get (f_name f) l = Some v' → is_ok (store f v') = true).
  { intros f v' Hf Hx Hg. apply Hok; try done. rewrite od_get_cons.
    destruct (decide (k = f_name f)) as [->|]; [|done].
    by rewrite od_get_None in Hg. }
  unfold MapStruct.init_body at 1. simpl. rewrite (cls_keys name fields cls Hnew).
  destruct (bool_decide_reflect (k ∈ key_names fields)) as [Hin|Hin].
  - apply in_key_names in Hin as (f0 & Hf0 & Hx0 & <-).
    rewrite (setattr_field name fields cls Hnew Hwf f0 v vals Hf0 Hx0).
    assert (Hs : is_ok (store f0 v) = true).
    { apply Hok; try done. by rewrite od_get_cons, decide_True. }
    destruct (store f0 v) as [w|] eqn:Ew; [|done].
    destruct (IH Hl Hok' (<[f_name f0 := w]> vals)) as (vals' & -> & Hkey & Hout).
    exists vals'. split; [done|]. split.
    + intros f Hf Hx. rewrite (Hkey f Hf Hx), od_get_cons.
      destruct (decide (f_name f0 = f_name f)) as [Heq|Hne].
      * assert (f0 = f) as -> by by apply (key_field_inj fields Hwf).
        by rewrite od_get_None, lookup_insert_eq, Ew.
      * by rewrite lookup_insert_ne.
    + intros n Hn. rewrite (Hout n Hn), lookup_insert_ne; [done|].
      intros <-. apply Hn, in_key_names. eauto.
  - destruct (IH Hl Hok' vals) as (vals' & -> & Hkey & Hout).
    exists vals'. split; [done|]. split; [|done].
    intros f Hf Hx. rewrite (Hkey f Hf Hx), od_get_cons.
    rewrite decide_False; [done|].
    intros ->. apply Hin, in_key_names. eauto.
Qed.

(** What the local dictionary [values] of [__init__] holds for the
    [i]-th key. *)
Lemma init_values_get args kwargs i k :
  key_names fields !! i = Some k →
  od_get k
    (od_update (od_update [] (od_update [] (zip (key_names fields) args)))
       (od_update [] (kw_names kwargs)))
  = assigned args kwargs i k.
Proof.
  intros Hi. unfold assigned.
  rewrite od_get_update.
  rewrite (lookup_last_NoDup k (od_update [] _))
    by (apply od_update_NoDup, NoDup_nil_2).
  rewrite (od_get_update k [] (kw_names kwargs)).
  destruct (lookup_last k (kw_names kwargs)); [done|]. simpl.
  rewrite od_get_update.
  rewrite (lookup_last_NoDup k (od_update [] _))
    by (apply od_update_NoDup, NoDup_nil_2).
  rewrite od_get_update.
  rewrite lookup_last_NoDup by apply zip_keys_NoDup, (wf_nodup fields Hwf).
  rewrite (od_get_zip _ _ i) by (done || apply (wf_nodup fields Hwf)).
  by destruct (args !! i).
Qed.

Lemma init_from_values args kwargs :
  lookup_last (Some "self"%string) (kw_names kwargs) = None →
  lookup_last (Some "bytes"%string) (kw_names kwargs) = None →
  (∀ i f v, key_fields fields !! i = Some f →
     assigned args kwargs i (f_name f) = Some v → is_ok (store f v) = true) →
  ∃ vals,
    MapStruct.__init__ cls args kwargs = (vals, Ok ())
    ∧ (∀ i f, key_fields fields !! i = Some f →
         vals !! f_name f
         = match assigned args kwargs i (f_name f) with
           | Some v => match store f v with Ok w => Some w | Raise _ => None end
           | None => Some (f_value f)
           end)
    ∧ (∀ n, n ∉ _keys cls →
         vals !! n = MapStruct.default_values fields !! n).
Proof.
  intros Hself Hbytes Hok. unfold MapStruct.__init__.
  rewrite (cls_fields name fields cls Hnew), (cls_keys name fields cls Hnew).
  change (map (λ kv : string * Value, (Some kv.1, kv.2)) kwargs)
    with (kw_names kwargs).
  rewrite (od_get_update (Some "self"%string) [] (kw_names kwargs)), Hself.
  simpl.
  rewrite (od_get_update (Some "bytes"%string) [] (kw_names kwargs)), Hbytes.
  simpl.
  assert (Hidx : ∀ f, In f fields → is_filler f = false →
            ∃ i, key_fields fields !! i = Some f
                 ∧ key_names fields !! i = Some (f_name f)).
  { intros f Hf Hx.
    assert (Hin : f ∈ key_fields fields).
    { apply list_elem_of_In, filter_In. by rewrite Hx. }
    apply list_elem_of_lookup in Hin as [i Hi]. exists i. split; [done|].
    unfold key_names. fold (key_fields fields). by rewrite lookup_map, Hi. }
  set (values := od_update _ (od_update [] (kw_names kwargs))).
  destruct (for_each_assign values) with
    (vals := MapStruct.default_values fields) as (vals & Hrun & Hkey & Hout).
  - apply od_update_NoDup, od_update_NoDup, NoDup_nil_2.
  - intros f v Hf Hx Hg. destruct (Hidx f Hf Hx) as (i & Hi & Hn).
    apply (Hok i f v Hi). by rewrite <- (init_values_get args kwargs i).
  - exists vals. split; [exact Hrun|]. split.
    + intros i f Hi.
      assert (Hin : In f fields ∧ is_filler f = false).
      { apply list_elem_of_lookup_2, list_elem_of_In, filter_In in Hi as [? Hx].
        by destruct (is_filler f). }
      destruct Hin as [Hf Hx]. rewrite (Hkey f Hf Hx).
      assert (Hn : key_names fields !! i = Some (f_name f)).
      { unfold key_names. fold (key_fields fields). by rewrite lookup_map, Hi. }
      unfold values. rewrite (init_values_get args kwargs i _ Hn).
      destruct (assigned args kwargs i (f_name f)); [done|].
      by apply (default_lookup fields Hwf).
    + intros n Hn. by apply Hout.
Qed.

End construction.

Lemma zip_extra {A B} (ks : list A) (vs extra : list B) :
  length ks ≤ length vs → zip ks (vs ++ extra) = zip ks vs.
Proof.
  revert vs. induction ks as [|k ks IH]; intros [|v vs]; simpl; try done; try lia.
  intros Hl. rewrite IH; [done | lia].
Qed.

Lemma init_extra_positional cls args extra kwargs :
  length (_keys cls) ≤ length args →
  MapStruct.__init__ cls (args ++ extra) kwargs = MapStruct.__init__ cls args kwargs.
Proof. intros Hl. unfold MapStruct.__init__. by rewrite zip_extra. Qed.

Lemma lookup_last_snoc k l k0 v0 :
  lookup_last k (l ++ [(k0, v0)])
  = if decide (k0 = k) then Some v0 else lookup_last k l.
Proof. unfold lookup_last. by rewrite foldl_app. Qed.

Lemma assigned_unknown args kwargs i n k v :
  n ≠ Some k →
  assigned args (kwargs ++ [(k, v)]) i n = assigned args kwargs i n.
Proof.
  intros Hn. unfold assigned, kw_names. rewrite map_app. simpl.
  rewrite lookup_last_snoc, decide_False; [done | congruence].
Qed.

Lemma key_fields_spec fields i f :
  key_fields fields !! i = Some f →
  In f fields ∧ is_filler f = false ∧ key_names fields !! i = Some (f_name f).
Proof.
  intros Hi. pose proof Hi as Hin.
  apply list_elem_of_lookup_2, list_elem_of_In, filter_In in Hin as [? Hx].
  repeat split; [done | by destruct (is_filler f) |].
  unfold key_names. fold (key_fields fields). by rewrite lookup_map, Hi.
Qed.

Lemma init_unknown_keyword name fields cls args kwargs k v :
  StructMeta.__new__ name fields = Ok cls →
  wf_fields fields = true →
  lookup_last (Some "self"%string) (kw_names kwargs) = None →
  lookup_last (Some "bytes"%string) (kw_names kwargs) = None →
  (∀ i f v, key_fields fields !! i = Some f →
     assigned args kwargs i (f_name f) = Some v → is_ok (store f v) = true) →
  Some k ∉ _keys cls → k ≠ "self"%string → k ≠ "bytes"%string →
  MapStruct.__init__ cls args (kwargs ++ [(k, v)])
  = MapStruct.__init__ cls args kwargs.
Proof.
  intros Hnew Hwf Hself Hbytes Hok Hk Hks Hkb.
  assert (Hne : ∀ i f, key_fields fields !! i = Some f → f_name f ≠ Some k).
  { intros i f (Hf & Hx & Hn)%key_fields_spec Heq. apply Hk.
    rewrite (cls_keys name fields cls Hnew), <- Heq.
    by apply (list_elem_of_lookup_2 _ i). }
  destruct (init_from_values name fields cls Hnew Hwf args kwargs
              Hself Hbytes Hok) as (vals & -> & Hkey & Hout).
  destruct (init_from_values name fields cls Hnew Hwf args (kwargs ++ [(k, v)]))
    as (vals' & -> & Hkey' & Hout').
  { unfold kw_names. rewrite map_app. simpl.
    rewrite lookup_last_snoc, decide_False; [done | congruence]. }
  { unfold kw_names. rewrite map_app. simpl.
    rewrite lookup_last_snoc, decide_False; [done | congruence]. }
  { intros i f w Hi. rewrite assigned_unknown by by apply (Hne i). by apply Hok. }
  f_equal. apply map_eq. intros n.
  destruct (decide (n ∈ _keys cls)) as [Hn|Hn].
  - rewrite (cls_keys name fields cls Hnew) in Hn.
    apply in_key_names in Hn as (f & Hf & Hx & <-).
    assert (Hin : f ∈ key_fields fields).
    { apply list_elem_of_In, filter_In. by rewrite Hx. }
    apply list_elem_of_lookup in Hin as [i Hi].
    rewrite (Hkey i f Hi), (Hkey' i f Hi).
    by rewrite assigned_unknown by by apply (Hne i).
  - by rewrite Hout, Hout'.
Qed.

Lemma init_keyword_self cls args kwargs v :
  snd (MapStruct.__init__ cls args (kwargs ++ [("self"%string, v)]))
  = Raise TypeError.
Proof.
  unfold MapStruct.__init__.
  rewrite (od_get_update (Some "self"%string) []), map_app.
  cbn [map fst snd]. rewrite lookup_last_snoc.
  by destruct (decide (Some "self"%string = Some "self"%string)).
Qed.

(** C7: construction from positional and keyword values, when no
    keyword is named [bytes] or [self] and every value given to a string
    field is a [str] or [bytes]: the constructor returns, the [i]-th
    non-filler field takes its keyword value if it has one, else the
    [i]-th positional value, else its default, each written through the
    field's setter, and every other name keeps its default; a further
    keyword that names no field (other than [bytes] and [self]) and the
    positional values beyond the last field change nothing; a further
    keyword named [self] makes the constructor raise [TypeError]. *)
Theorem init_assigns_values (name : string) (fields : list FieldSpec)
    (cls : StructClass) (args : list Value) (kwargs : list (string * Value)) :
  StructMeta.__new__ name fields = Ok cls →
  wf_fields fields = true →
  lookup_last (Some "self"%string) (kw_names kwargs) = None →
  lookup_last (Some "bytes"%string) (kw_names kwargs) = None →
  (∀ i f v, key_fields fields !! i = Some f →
     assigned args kwargs i (f_name f) = Some v → is_ok (store f v) = true) →
  (∃ vals,
     MapStruct.__init__ cls args kwargs = (vals, Ok ())
     ∧ (∀ i f, key_fields fields !! i = Some f →
          vals !! f_name f
          = match assigned args kwargs i (f_name f) with
            | Some v => match store f v with Ok w => Some w | Raise _ => None end
            | None => Some (f_value f)
            end)
     ∧ (∀ n, n ∉ _keys cls →
          vals !! n = MapStruct.default_values fields !! n))
  ∧ (∀ k v, Some k ∉ _keys cls → k ≠ "self"%string → k ≠ "bytes"%string →
       MapStruct.__init__ cls args (kwargs ++ [(k, v)])
       = MapStruct.__init__ cls args kwargs)
  ∧ (∀ extra, length (_keys cls) ≤ length args →
       MapStruct.__init__ cls (args ++ extra) kwargs
       = MapStruct.__init__ cls args kwargs)
  ∧ (∀ v, snd (MapStruct.__init__ cls args (kwargs ++ [("self"%string, v)]))
          = Raise TypeError).
Proof.
  intros Hnew Hwf Hself Hbytes Hok. repeat split.
  - by apply (init_from_values name).
  - intros k v Hk Hks Hkb. by apply (init_unknown_keyword name fields).
  - intros extra Hl. by apply init_extra_positional.
  - intros v. apply init_keyword_self.
Qed.

Lemma init_assigns_values_witness :
  ∃ vals, MapStruct.__init__ ex_cls ex_args ex_kwargs = (vals, Ok ())
          ∧ vals !! Some "id"%string = Some (VStr (py "AB"))
          ∧ vals !! Some "count"%string = Some (VInt 5).
Proof.
  destruct (proj1 (init_assigns_values "Ex" ex_fields ex_cls ex_args ex_kwargs
                     ltac:(vm_compute; reflexivity)
                     ltac:(vm_compute; reflexivity)
                     ltac:(vm_compute; reflexivity)
                     ltac:(vm_compute; reflexivity)
                     ltac:(intros [|[|i]] f v; vm_compute;
                           intros [= <-] [= <-]; reflexivity)))
    as (vals & Hrun & Hkey & _).
  exists vals. split; [exact Hrun|]. split.
  - exact (Hkey 0%nat _ eq_refl).
  - exact (Hkey 1%nat _ eq_refl).
Defined.

(** The constructor does not assign every value it is given: a value
    for a string field that is neither a [str] nor [bytes] makes it raise
    [TypeError] (positional or keyword), and the keyword [self], which
    names no field, is rejected with [TypeError], not ignored. *)
Lemma init_rejects_values_counterexample :
  StructMeta.__new__ "Ex" ex_fields = Ok ex_cls
  ∧ snd (MapStruct.__init__ ex_cls [VInt 7] []) = Raise TypeError
  ∧ snd (MapStruct.__init__ ex_cls [] [("id"%string, VNone)]) = Raise TypeError
  ∧ (Some "self"%string ∉ _keys ex_cls)
  ∧ snd (MapStruct.__init__ ex_cls [] [("self"%string, VInt 1)])
    = Raise TypeError.
Proof.
  repeat split; try (vm_compute; reflexivity).
  apply (bool_decide_unpack _). vm_compute. exact I.
Qed.

Lemma field_item_count f it sg w :
  field_item f = Some it → code it = IntC sg w → count it = 1%nat.
Proof.
  unfold field_item. destruct (f_type f) as [tc|]; [|done].
  apply one_item_count.
Qed.

(** ** The layout of a compiled class *)

Lemma scan_join_layout fields :
  forallb wf_type fields = true → forallb has_type fields = true →
  scan None (StructMeta.join_types fields) = Ok (layout fields).
Proof.
  induction fields as [|f fs IH]; simpl; [done|].
  intros [Hw Hws]%andb_prop [Ht Hts]%andb_prop.
  unfold wf_type, has_type in Hw, Ht. unfold field_item.
  destruct (f_type f) as [tc|]; [|done].
  apply bool_decide_eq_true in Hw as [it Hit]. rewrite Hit.
  pose proof (one_item_scan tc it Hit) as Hs.
  destruct tc as [|c tc]; [done|]. simpl truthy. cbv iota. simpl default.
  rewrite (scan_app _ None [it] _ Hs), (IH Hws Hts). done.
Qed.

Lemma zstrip_bytes (c : pybytes) :
  zstrip (VBytes c) = Ok (VStr (strip_nul (decode_ascii_ignore c))).
Proof. unfold zstrip, strip_nul. by destruct (contains_nul _). Qed.

Lemma key_names_cons f fs :
  key_names (f :: fs)
  = if is_filler f then key_names fs else f_name f :: key_names fs.
Proof. unfold key_names. simpl. by destruct (is_filler f). Qed.

Section codec.
Variables (name : string) (fields : list FieldSpec) (cls : StructClass).
Hypothesis Hnew : StructMeta.__new__ name fields = Ok cls.
Hypothesis Hwf : wf_fields fields = true.

Lemma cls_items : items (_struct cls) = layout fields.
Proof.
  destruct (new_inv _ _ _ Hnew) as (Ht & Hs & _).
  rewrite (scan_join_layout fields (wf_types fields Hwf) Ht) in Hs.
  by injection Hs.
Qed.

Lemma cls_size : MapStruct.size cls = struct_size (layout fields).
Proof. unfold MapStruct.size, size_of. by rewrite cls_items. Qed.

(** The loop of [unpack] writes the decoded fields one by one. *)
Lemma unpack_loop fs :
  (∀ f, In f fs → In f fields) →
  ∀ b vals,
    for_each (λ kv, setattr cls kv.1 kv.2)
      (zip (key_names fs) (unpack_items (layout fs) b)) vals
    = (write_all vals (decode_fields fs b), Ok ()).
Proof.
  induction fs as [|f fs IH]; intros Hsub b vals; [done|].
  assert (Hf : In f fields) by (apply Hsub; by left).
  assert (Hfs : ∀ g, In g fs → In g fields) by (intros g Hg; apply Hsub; by right).
  destruct (field_has_item name fields cls Hnew Hwf f Hf) as [it Hit].
  pose proof (field_item_filler f it Hit) as Hx.
  pose proof (field_item_string f it Hit) as Hs.
  rewrite key_names_cons, Hx. unfold layout. simpl. rewrite Hit. simpl.
  fold (layout fs). unfold unpack_item, item_size.
  destruct (code it) as [| |sg w] eqn:Ec; simpl.
  - by apply IH.
  - rewrite (setattr_field name fields cls Hnew Hwf f _ vals Hf) by done.
    unfold store. rewrite Hs, zstrip_bytes, take_take, Nat.min_id.
    by apply IH.
  - rewrite (field_item_count f it sg w Hit Ec).
    simpl. rewrite Nat.add_0_r.
    rewrite (setattr_field name fields cls Hnew Hwf f _ vals Hf) by done.
    unfold store. rewrite Hs, take_take, Nat.min_id.
    by apply IH.
Qed.

Lemma unpack_right_size b vals :
  length b = MapStruct.size cls →
  MapStruct.unpack cls (VBytes b) vals
  = (write_all vals (decode_fields fields b), Ok ()).
Proof.
  intros Hl. unfold MapStruct.unpack, struct_unpack.
  unfold MapStruct.size, size_of in Hl. rewrite Hl, Nat.eqb_refl.
  rewrite (cls_keys name fields cls Hnew), cls_items.
  by apply unpack_loop.
Qed.

End codec.

(** ** The size check of [unpack] *)

(** C6: [unpack] on a buffer whose length is not the size of the type
    raises the size error of [struct], for every class; on a buffer of
    exactly that size it returns, having written the decoded fields
    through their setters in declaration order. *)
Theorem unpack_checks_size :
  (∀ (cls : StructClass) (b : pybytes) (vals : gmap Name Value),
     length b ≠ MapStruct.size cls →
     MapStruct.unpack cls (VBytes b) vals
     = (vals, Raise (struct_error BadSize)))
  ∧ (∀ (name : string) (fields : list FieldSpec) (cls : StructClass)
       (b : pybytes) (vals : gmap Name Value),
       StructMeta.__new__ name fields = Ok cls →
       wf_fields fields = true →
       length b = MapStruct.size cls →
       MapStruct.unpack cls (VBytes b) vals
       = (write_all vals (decode_fields fields b), Ok ())).
Proof.
  split.
  - apply unpack_bad_size.
  - intros name fields cls b vals Hnew Hwf. by apply (unpack_right_size name).
Qed.

Lemma unpack_checks_size_witness :
  MapStruct.unpack ex_cls (VBytes (pyb "AB")) ex_long
  = (ex_long, Raise (struct_error BadSize))
  ∧ MapStruct.unpack ex_cls
      (VBytes (pyb "AB" ++ [x00; x00; x05; x00; x00; x00])) ex_long
    = (write_all ex_long
         (decode_fields ex_fields (pyb "AB" ++ [x00; x00; x05; x00; x00; x00])),
       Ok ()).
Proof.
  split.
  - apply (proj1 unpack_checks_size ex_cls (pyb "AB") ex_long).
    vm_compute. lia.
  - apply (proj2 unpack_checks_size "Ex" ex_fields ex_cls
             (pyb "AB" ++ [x00; x00; x05; x00; x00; x00]) ex_long);
      vm_compute; reflexivity.
Defined.

(** ** Integers on the wire *)

Lemma to_N_byte_of_Z (z : Z) : Z.of_N (Byte.to_N (byte_of_Z z)) = (z mod 256)%Z.
Proof.
  unfold byte_of_Z. pose proof (Z.mod_pos_bound z 256 eq_refl).
  rewrite to_N_byte_of_N by lia. lia.
Qed.

Lemma le_value_le_bytes (w : nat) (z : Z) :
  le_value (le_bytes w z) = (z mod 2 ^ (8 * Z.of_nat w))%Z.
Proof.
  revert z. induction w as [|w IH]; intros z.
  - simpl. by rewrite Z.mod_1_r.
  - cbn [le_bytes le_value]. rewrite to_N_byte_of_Z, IH.
    replace (8 * Z.of_nat (S w))%Z with (8 + 8 * Z.of_nat w)%Z by lia.
    rewrite Z.pow_add_r by lia. change (2 ^ 8)%Z with 256%Z.
    rewrite Z.rem_mul_r; [done | lia | apply Z.pow_pos_nonneg; lia].
Qed.

Lemma unpack_pack_int (sg : bool) (w : nat) (z : Z) :
  (int_min sg w <= z <= int_max sg w)%Z →
  unpack_int sg w (le_bytes w z) = VInt z.
Proof.
  unfold unpack_int, int_min, int_max. rewrite le_value_le_bytes.
  intros Hz. f_equal. destruct w as [|w].
  { destruct sg; simpl in *; [lia|]. assert (z = 0%Z) as -> by lia. done. }
  assert (HM : (2 ^ (8 * Z.of_nat (S w)) = 2 * 2 ^ (8 * Z.of_nat (S w) - 1))%Z).
  { rewrite <- Z.pow_succ_r by lia. f_equal. lia. }
  assert (HH : (0 < 2 ^ (8 * Z.of_nat (S w) - 1))%Z) by (apply Z.pow_pos_nonneg; lia).
  set (H := (2 ^ (8 * Z.of_nat (S w) - 1))%Z) in *.
  set (M := (2 ^ (8 * Z.of_nat (S w)))%Z) in *.
  destruct sg; simpl.
  - destruct (Z.leb_spec H (z mod M)) as [Hu|Hu].
    + destruct (Z.neg_nonneg_cases z) as [Hneg|Hpos].
      * rewrite <- (Z.mod_add z 1 M) by lia. rewrite Z.mod_small; lia.
      * rewrite Z.mod_small in Hu; lia.
    + destruct (Z.neg_nonneg_cases z) as [Hneg|Hpos].
      * rewrite <- (Z.mod_add z 1 M) in Hu by lia. rewrite Z.mod_small in Hu; lia.
      * rewrite Z.mod_small; lia.
  - rewrite Z.mod_small; lia.
Qed.

(** ** Round trip *)

Lemma write_all_in (vals m : gmap Name Value) (l : list (Name * Value)) k :
  Forall (λ kv, vals !! kv.1 = Some kv.2) l →
  k ∈ l.*1 → write_all m l !! k = vals !! k.
Proof.
  unfold write_all. revert m.
  induction l as [|[k0 v0] l IH]; intros m Hl; simpl.
  { by rewrite elem_of_nil. }
  apply Forall_cons in Hl as [Hk0 Hl]. simpl in Hk0.
  destruct (decide (k ∈ l.*1)) as [Hin|Hnin]; [intros _; by apply IH|].
  rewrite elem_of_cons. intros [->|?]; [|done].
  clear IH. revert m Hnin. induction l as [|[k1 v1] l IH]; intros m; simpl.
  - intros _. by rewrite lookup_insert_eq.
  - rewrite not_elem_of_cons. intros [Hne Hnin].
    apply Forall_cons in Hl as [_ Hl].
    rewrite insert_insert_ne by done. by apply IH.
Qed.

Lemma write_all_out (m : gmap Name Value) (l : list (Name * Value)) k :
  k ∉ l.*1 → write_all m l !! k = m !! k.
Proof.
  unfold write_all. revert m.
  induction l as [|[k0 v0] l IH]; intros m; simpl; [done|].
  rewrite not_elem_of_cons. intros [Hne Hnin].
  rewrite IH by done. by rewrite lookup_insert_ne.
Qed.

Lemma pad_chunk (s : pystr) (n : nat) :
  length s ≤ 8 → length s ≤ n →
  take n (take 8 (map byte_of_N s) ++ replicate (8 - length s) x00)
    ++ replicate (n - length (take 8 (map byte_of_N s)
                                ++ replicate (8 - length s) x00)) x00
  = map byte_of_N s ++ replicate (n - length s) x00.
Proof.
  intros H8 Hn.
  rewrite (take_ge (map byte_of_N s)) by (rewrite length_map; lia).
  rewrite length_app, length_replicate, length_map.
  rewrite take_app_ge by (rewrite length_map; lia).
  rewrite take_replicate, length_map, <- app_assoc, <- replicate_add.
  do 2 f_equal. lia.
Qed.

Section round_trip.
Variables (name : string) (fields : list FieldSpec) (cls : StructClass).
Hypothesis Hnew : StructMeta.__new__ name fields = Ok cls.
Hypothesis Hwf : wf_fields fields = true.

Lemma getattr_field f vals :
  In f fields → is_filler f = false →
  getattr cls (f_name f) vals
  = match vals !! f_name f with Some v => Ok v | None => Raise KeyError end.
Proof.
  intros Hf Hx. unfold getattr, StructMeta._get.
  destruct (wf_key_name fields Hwf f Hf Hx) as [k Hk].
  by rewrite (prop_lookup name fields cls Hnew Hwf f Hf Hx), Hk.
Qed.

Lemma char_in_s f : In f fields → char_in "s" (f_type f) = Ok (is_string f).
Proof.
  intros Hf. destruct (typed_field name fields cls Hnew f Hf) as [tc Ht].
  unfold is_string. by rewrite Ht.
Qed.

(** The loop of [pack] and [Struct.pack], followed by the decoding of
    the result, field by field. *)
Lemma pack_loop fs vals :
  (∀ f, In f fs → In f fields) →
  conformant fields vals →
  ∃ ps bs,
    MapStruct.packs cls fs vals = Ok ps
    ∧ length ps = struct_nvals (layout fs)
    ∧ pack_items (layout fs) ps = Ok bs
    ∧ (decode_fields fs bs).*1 = key_names fs
    ∧ Forall (λ kv, vals !! kv.1 = Some kv.2) (decode_fields fs bs).
Proof.
  intros Hsub Hc. induction fs as [|f fs IH].
  { exists [], []. by repeat split. }
  assert (Hf : In f fields) by (apply Hsub; by left).
  destruct IH as (ps & bs & Hps & Hlen & Hbs & Hkeys & Hvals).
  { intros g Hg. apply Hsub. by right. }
  destruct (field_has_item name fields cls Hnew Hwf f Hf) as [it Hit].
  pose proof (field_item_filler f it Hit) as Hx.
  pose proof (field_item_string f it Hit) as Hs.
  cbn [MapStruct.packs]. rewrite (char_in_s f Hf). cbn [rbind].
  rewrite key_names_cons. unfold layout. cbn [flat_map decode_fields].
  rewrite Hit. cbn [app]. fold (layout fs).
  cbn [pack_items struct_nvals foldr]. fold (struct_nvals (layout fs)).
  unfold item_nvals, item_size, pack_item.
  destruct (code it) as [| |sg w] eqn:Ec; rewrite Hx, Hs.
  - (* filler *)
    rewrite bool_decide_eq_false_2.
    2:{ rewrite (cls_keys name fields cls Hnew).
        by apply (wf_filler_name fields Hwf). }
    exists ps, (replicate (count it) x00 ++ bs).
    rewrite drop_0, Hbs. cbn [rbind].
    rewrite drop_app_length' by by rewrite length_replicate.
    by repeat split.
  - (* string *)
    destruct (Hc f Hf Hx) as (v & Hv & Hcv).
    unfold conforms in Hcv. rewrite Hit, Ec in Hcv.
    destruct v as [| |s|]; try done.
    apply andb_prop in Hcv as [Htext Hl]. apply Nat.leb_le in Hl.
    rewrite (getattr_field f vals Hf Hx), Hv. cbn [rbind].
    rewrite zpad_str by by apply is_text_encodable. cbn [rbind].
    rewrite Hps. cbn [rbind].
    exists (VBytes (take 8 (map byte_of_N s) ++ replicate (8 - length s) x00) :: ps),
           ((map byte_of_N s ++ replicate (count it - length s) x00) ++ bs).
    cbn [take drop length]. rewrite drop_0, Hbs. cbn [rbind].
    rewrite pad_chunk by lia.
    rewrite take_app_length', drop_app_length'
      by (rewrite length_app, length_map, length_replicate; lia).
    pose proof (zstrip_pad s (count it - length s) Htext) as Hz.
    rewrite zstrip_bytes in Hz. injection Hz as ->.
    repeat split; cbn [fmap list_fmap fst]; try (f_equal; done).
    apply Forall_cons. by split.
  - (* integer *)
    destruct (Hc f Hf Hx) as (v & Hv & Hcv).
    unfold conforms in Hcv. rewrite Hit, Ec in Hcv.
    destruct v as [|z| |]; try done.
    apply andb_prop in Hcv as [Hlo Hhi].
    apply Z.leb_le in Hlo. apply Z.leb_le in Hhi.
    rewrite bool_decide_eq_true_2.
    2:{ rewrite (cls_keys name fields cls Hnew). apply in_key_names. eauto. }
    rewrite (getattr_field f vals Hf Hx), Hv. cbn [rbind].
    rewrite Hps. cbn [rbind].
    rewrite (field_item_count f it sg w Hit Ec).
    exists (VInt z :: ps), (le_bytes w z ++ bs).
    cbn [take drop length pack_ints pack_int]. rewrite drop_0, Hbs.
    destruct (Z.leb_spec (int_min sg w) z); [|lia].
    destruct (Z.leb_spec z (int_max sg w)); [|lia].
    cbn [andb rbind]. rewrite take_0. cbn [pack_ints rbind].
    rewrite app_nil_r, Nat.mul_1_l.
    rewrite take_app_length', drop_app_length' by by rewrite length_le_bytes.
    rewrite unpack_pack_int by lia.
    repeat split; cbn [fmap list_fmap fst]; try (f_equal; done).
    apply Forall_cons. by split.
Qed.

Lemma pack_then_unpack vals :
  conformant fields vals →
  ∃ b, MapStruct.pack cls vals = Ok b
    ∧ ∀ vals0, ∃ vals',
        MapStruct.unpack cls (VBytes b) vals0 = (vals', Ok ())
        ∧ (∀ k, k ∈ _keys cls → vals' !! k = vals !! k)
        ∧ (∀ n, n ∉ _keys cls → vals' !! n = vals0 !! n).
Proof.
  intros Hc.
  destruct (pack_loop fields vals (λ f H, H) Hc)
    as (ps & bs & Hps & Hlen & Hbs & Hkeys & Hvals).
  exists bs. unfold MapStruct.pack.
  rewrite (cls_fields name fields cls Hnew), Hps. cbn [rbind].
  rewrite (cls_items name fields cls Hnew Hwf). unfold struct_pack.
  rewrite Hlen, Nat.eqb_refl. split; [done|].
  intros vals0. eexists. split.
  - apply (unpack_right_size name fields cls Hnew Hwf).
    rewrite (cls_size name fields cls Hnew Hwf).
    by apply (length_pack_items _ ps).
  - rewrite (cls_keys name fields cls Hnew), <- Hkeys. split.
    + intros k Hk. by apply write_all_in.
    + intros n Hn. by apply write_all_out.
Qed.

End round_trip.

(** The example scenario of the specification: size 6, and
    [id="AB", count=5] packs to [b"AB\x00\x00"] followed by 5 as a
    little-endian 16-bit integer, which unpacks to the same values. *)
Lemma scenario_round_trip :
  ∃ cls vals,
    StructMeta.__new__ "Scenario" scenario_fields = Ok cls
    ∧ MapStruct.size cls = 6%nat
    ∧ MapStruct.__init__ cls [] [("id", VStr (py "AB")); ("count", VInt 5)]%string
      = (vals, Ok ())
    ∧ MapStruct.pack cls vals = Ok (pyb "AB" ++ [x00; x00; x05; x00])
    ∧ MapStruct.unpack cls (VBytes (pyb "AB" ++ [x00; x00; x05; x00])) vals
      = (vals, Ok ()).
Proof.
  do 2 eexists. split; [vm_compute; reflexivity|].
  split; [vm_compute; reflexivity|].
  split; [vm_compute; reflexivity|].
  split; vm_compute; reflexivity.
Qed.

(** C1 (as stated, for every instance) fails: a string longer than
    its field comes back cut to the width of the field. *)
Lemma long_string_round_trip_counterexample :
  MapStruct.__init__ ex_cls []
    [("id", VStr (py "TOOLONGNAME")); ("count", VInt 5)]%string
  = (ex_long, Ok ())
  ∧ ∃ b r',
      MapStruct.pack ex_cls ex_long = Ok b
      ∧ MapStruct.unpack ex_cls (VBytes b) ex_long = (r', Ok ())
      ∧ ex_long !! Some "id"%string = Some (VStr (py "TOOLONGNAME"))
      ∧ r' !! Some "id"%string = Some (VStr (py "TOOL"))
      ∧ r' ≠ ex_long.
Proof.
  split; [vm_compute; reflexivity|].
  exists (pyb "TOOL" ++ [x05; x00; x00; x00]).
  exists (<[Some "id"%string := VStr (py "TOOL")]> ex_long).
  assert (H1 : ex_long !! Some "id"%string = Some (VStr (py "TOOLONGNAME")))
    by (vm_compute; reflexivity).
  repeat split; try (vm_compute; reflexivity).
  intros Heq. rewrite <- Heq, lookup_insert_eq in H1. discriminate H1.
Qed.

(** C1, amended: for an instance whose stored fields hold values that
    fit their fields (integers in the range of their code, texts of
    ASCII characters other than NUL no longer than 8 and than the width
    of the field), [pack] returns a buffer, and [unpack] on that buffer
    gives the same values back: into the instance itself it changes
    nothing, into any other instance of the type it writes the stored
    fields and leaves every other entry as it was. *)
Theorem pack_unpack_round_trip (name : string) (fields : list FieldSpec)
    (cls : StructClass) (vals : gmap Name Value) :
  StructMeta.__new__ name fields = Ok cls →
  wf_fields fields = true →
  conformant fields vals →
  ∃ b, MapStruct.pack cls vals = Ok b
    ∧ MapStruct.unpack cls (VBytes b) vals = (vals, Ok ())
    ∧ ∀ vals0, ∃ vals',
        MapStruct.unpack cls (VBytes b) vals0 = (vals', Ok ())
        ∧ (∀ k, k ∈ _keys cls → vals' !! k = vals !! k)
        ∧ (∀ n, n ∉ _keys cls → vals' !! n = vals0 !! n).
Proof.
  intros Hnew Hwf Hc.
  destruct (pack_then_unpack name fields cls Hnew Hwf vals Hc) as (b & Hb & Hu).
  exists b. repeat split; [done | | done].
  destruct (Hu vals) as (vals' & -> & Hk & Hn). f_equal.
  apply map_eq. intros n.
  destruct (decide (n ∈ _keys cls)); [by apply Hk | by apply Hn].
Qed.

Lemma pack_unpack_round_trip_witness :
  ∃ b, MapStruct.pack ex_cls ex_ab = Ok b
       ∧ MapStruct.unpack ex_cls (VBytes b) ex_ab = (ex_ab, Ok ()).
Proof.
  destruct (pack_unpack_round_trip "Ex" ex_fields ex_cls ex_ab
              ltac:(vm_compute; reflexivity) ltac:(vm_compute; reflexivity))
    as (b & Hp & Hu & _).
  - intros f [<-|[<-|[<-|[]]]] Hx.
    + exists (VStr (py "AB")). split; vm_compute; reflexivity.
    + exists (VInt 5). split; vm_compute; reflexivity.
    + vm_compute in Hx. discriminate Hx.
  - exists b. split; [exact Hp | exact Hu].
Defined.

(** ** Filler fields *)

Lemma layout_app l1 l2 : layout (l1 ++ l2) = layout l1 ++ layout l2.
Proof. unfold layout. apply flat_map_app. Qed.

Lemma struct_size_app l1 l2 :
  struct_size (l1 ++ l2) = (struct_size l1 + struct_size l2)%nat.
Proof. induction l1 as [|it l1 IH]; simpl; [done | rewrite IH; lia]. Qed.

Lemma struct_nvals_app l1 l2 :
  struct_nvals (l1 ++ l2) = (struct_nvals l1 + struct_nvals l2)%nat.
Proof. induction l1 as [|it l1 IH]; simpl; [done | rewrite IH; lia]. Qed.

Lemma pack_items_app its1 its2 : ∀ args b,
  pack_items (its1 ++ its2) args = Ok b →
  ∃ b1 b2,
    pack_items its1 (take (struct_nvals its1) args) = Ok b1
    ∧ pack_items its2 (drop (struct_nvals its1) args) = Ok b2
    ∧ b = b1 ++ b2.
Proof.
  induction its1 as [|it its1 IH]; intros args b; simpl.
  { intros Hb. exists [], b. by rewrite drop_0. }
  destruct (pack_item it _) as [bi|] eqn:Ei; [|done]. simpl.
  destruct (pack_items (its1 ++ its2) _) as [bs|] eqn:Es; [|done]. simpl.
  intros [= <-]. destruct (IH _ _ Es) as (b1 & b2 & H1 & H2 & ->).
  exists (bi ++ b1), b2.
  rewrite take_take, Nat.min_l by lia. rewrite Ei. simpl.
  rewrite <- take_drop_commute, H1. simpl.
  rewrite drop_drop in H2. by rewrite H2, app_assoc.
Qed.

Section fillers.
Variables (name : string) (fields : list FieldSpec) (cls : StructClass).
Hypothesis Hnew : StructMeta.__new__ name fields = Ok cls.
Hypothesis Hwf : wf_fields fields = true.

Lemma setattr_inv key value vals : keys_only fields vals → keys_only fields (setattr cls key value vals).1.
Proof.
  intros [Hout Hdom].
  destruct (setattr_cases name fields cls Hnew key value vals)
    as [->|[->|(f & Hf & Hx & Hk & ->)]]; try done.
  destruct (store f value) as [w|]; [|done]. simpl. split.
  - intros n Hn. rewrite lookup_insert_ne; [by apply Hout|].
    intros <-. apply Hn, in_key_names. eauto.
  - intros g Hg. destruct (decide (key = f_name g)) as [->|Hne].
    + rewrite lookup_insert_eq. eauto.
    + rewrite lookup_insert_ne by done. by apply Hdom.
Qed.

Lemma unpack_inv data vals : keys_only fields vals → keys_only fields (MapStruct.unpack cls data vals).1.
Proof.
  intros Hi. unfold MapStruct.unpack.
  destruct (struct_unpack _ data) as [vs|]; [|done].
  apply for_each_preserves; [|done]. intros kv vals'. apply setattr_inv.
Qed.

Lemma reachable_inv vals : reachable cls vals → keys_only fields vals.
Proof.
  induction 1 as [args kwargs|key value vals _ IH|data vals _ IH];
    [|by apply setattr_inv|by apply unpack_inv].
  assert (H0 : keys_only fields (MapStruct.default_values fields)).
  { split; [done|]. apply default_is_Some. }
  unfold MapStruct.__init__. rewrite (cls_fields name fields cls Hnew).
  destruct (od_get (Some "self"%string) _); [done|].
  destruct (od_get _ _) as [data|]; [by apply unpack_inv|].
  apply for_each_preserves; [|done].
  intros kv vals Hi. unfold MapStruct.init_body.
  destruct (bool_decide _); [|done]. by apply setattr_inv.
Qed.

Lemma reachable_outside vals n :
  reachable cls vals → n ∉ _keys cls →
  vals !! n = MapStruct.default_values fields !! n.
Proof.
  intros [Hout _]%reachable_inv Hn. apply Hout.
  by rewrite <- (cls_keys name fields cls Hnew).
Qed.

Lemma reachable_eq v1 v2 :
  reachable cls v1 → reachable cls v2 →
  (MapStruct.__eq__ {| klass := cls; _values := v1 |}
                    {| klass := cls; _values := v2 |} = true)
  ↔ (∀ k, k ∈ _keys cls → v1 !! k = v2 !! k).
Proof.
  intros H1 H2. unfold MapStruct.__eq__. simpl.
  rewrite bool_decide_eq_true_2 by done. simpl.
  rewrite bool_decide_eq_true. split; [by intros ->|].
  intros Hk. apply map_eq. intros n.
  destruct (decide (n ∈ _keys cls)); [by apply Hk|].
  by rewrite (reachable_outside v1), (reachable_outside v2).
Qed.

Lemma str_total vals :
  (∀ f, In f fields → is_Some (vals !! f_name f)) →
  MapStruct.__str__ cls vals
  = Ok (join (py ", ")
          (map (λ f, str_of_name (f_name f) ++ py "="
                     ++ str_of_value (default VNone (vals !! f_name f)))
             fields)).
Proof.
  intros Hdom. unfold MapStruct.__str__.
  rewrite (cls_fields name fields cls Hnew).
  assert (H : mapM (MapStruct.str_item vals) fields
              = Ok (map (λ f, str_of_name (f_name f) ++ py "="
                              ++ str_of_value (default VNone (vals !! f_name f)))
                      fields)); [|by rewrite H].
  clear Hnew Hwf. induction fields as [|f fs IH]; simpl; [done|].
  destruct (Hdom f (or_introl eq_refl)) as [v Hv].
  unfold MapStruct.str_item at 1. rewrite Hv. simpl.
  rewrite IH; [done|]. intros g Hg. apply Hdom. by right.
Qed.

Lemma filler_bytes pre f post it vals b :
  fields = pre ++ f :: post →
  field_item f = Some it → code it = Pad →
  MapStruct.pack cls vals = Ok b →
  take (count it) (drop (struct_size (layout pre)) b)
  = replicate (count it) x00.
Proof.
  intros Hsplit Hit Hpad. unfold MapStruct.pack.
  destruct (MapStruct.packs cls _ vals) as [ps|]; [|done]. simpl.
  rewrite (cls_items name fields cls Hnew Hwf). unfold struct_pack.
  destruct (Nat.eqb_spec (length ps) (struct_nvals (layout fields)))
    as [Hlen|]; [|done].
  rewrite Hsplit, layout_app in Hlen |- *. simpl in Hlen |- *.
  rewrite Hit in Hlen |- *. simpl in Hlen |- *.
  rewrite struct_nvals_app in Hlen.
  intros (b1 & b2 & H1 & H2 & ->)%pack_items_app.
  apply length_pack_items in H1; [|rewrite length_take; lia].
  simpl in H2. unfold pack_item in H2. rewrite Hpad in H2. simpl in H2.
  destruct (pack_items (layout post) _) as [b3|]; [|done].
  injection H2 as <-.
  rewrite drop_app_length' by done.
  by rewrite take_app_length' by by rewrite length_replicate.
Qed.

End fillers.

(** C3 (as stated) fails for the textual form: [__str__] runs over
    all of [__fields__], so a filler field shows as [name=default]. *)
Lemma filler_in_textual_form_counterexample :
  reachable ex_cls ex_ab
  ∧ MapStruct.__str__ ex_cls ex_ab = Ok (py "id=AB, count=5, None=None")
  ∧ str_without_fillers ex_cls ex_ab = Ok (py "id=AB, count=5")
  ∧ MapStruct.__str__ ex_cls ex_ab ≠ str_without_fillers ex_cls ex_ab.
Proof.
  split; [apply reach_init|].
  assert (H1 : MapStruct.__str__ ex_cls ex_ab = Ok (py "id=AB, count=5, None=None"))
    by (vm_compute; reflexivity).
  assert (H2 : str_without_fillers ex_cls ex_ab = Ok (py "id=AB, count=5"))
    by (vm_compute; reflexivity).
  split; [exact H1|]. split; [exact H2|].
  rewrite H1, H2. vm_compute. discriminate.
Qed.

(** C3, amended: a filler field takes [count] zero bytes of the packed
    form at each place where it is declared; its name is not in [_keys],
    so neither the constructor, nor a setter, nor [unpack] writes its
    entry, which keeps the declared default; two instances of the class
    are equal exactly when they agree on the names of [_keys]; the
    textual form does list the filler field, as [name=default]. *)
Theorem filler_fields_reserved (name : string) (fields : list FieldSpec)
    (cls : StructClass) (f : FieldSpec) (it : Item) :
  StructMeta.__new__ name fields = Ok cls →
  wf_fields fields = true →
  In f fields → is_filler f = true → field_item f = Some it →
  (∀ pre post,
     fields = pre ++ f :: post →
     MapStruct.size cls
     = (struct_size (layout pre) + count it + struct_size (layout post))%nat
     ∧ ∀ vals b, MapStruct.pack cls vals = Ok b →
         take (count it) (drop (struct_size (layout pre)) b)
         = replicate (count it) x00)
  ∧ (f_name f ∉ _keys cls)
  ∧ (∀ vals, reachable cls vals →
       vals !! f_name f = MapStruct.default_values fields !! f_name f)
  ∧ (∀ v1 v2, reachable cls v1 → reachable cls v2 →
       (MapStruct.__eq__ {| klass := cls; _values := v1 |}
                         {| klass := cls; _values := v2 |} = true)
       ↔ (∀ k, k ∈ _keys cls → v1 !! k = v2 !! k))
  ∧ (∀ vals, reachable cls vals →
       ∃ d l,
         MapStruct.default_values fields !! f_name f = Some d
         ∧ MapStruct.__str__ cls vals = Ok (join (py ", ") l)
         ∧ In (str_of_name (f_name f) ++ py "=" ++ str_of_value d) l).
Proof.
  intros Hnew Hwf Hf Hx Hit.
  assert (Hpad : code it = Pad).
  { rewrite (field_item_filler f it Hit) in Hx. by destruct (code it). }
  assert (Hkey : f_name f ∉ _keys cls).
  { rewrite (cls_keys name fields cls Hnew).
    by apply (wf_filler_name fields Hwf). }
  split; [|split; [|split; [|split]]].
  - intros pre post Hsplit. split.
    + rewrite (cls_size name fields cls Hnew Hwf), Hsplit, layout_app.
      rewrite struct_size_app. unfold layout at 2. simpl. rewrite Hit. simpl.
      fold (layout post). unfold item_size. rewrite Hpad. lia.
    + intros vals b. by apply (filler_bytes name fields cls Hnew Hwf pre f post).
  - done.
  - intros vals Hr. by apply (reachable_outside name fields cls Hnew).
  - intros v1 v2. by apply (reachable_eq name fields).
  - intros vals Hr.
    destruct (reachable_inv name fields cls Hnew vals Hr) as [Hout Hdom].
    destruct (default_is_Some fields f Hf) as [d Hd].
    exists d. eexists. split; [done|]. split.
    + by apply (str_total name fields).
    + apply in_map_iff. exists f. split; [|done].
      by rewrite (reachable_outside name fields cls Hnew vals (f_name f) Hr Hkey), Hd.
Qed.

Lemma filler_fields_reserved_witness :
  (f_name (filler "2x") ∉ _keys ex_cls)
  ∧ (∀ vals, reachable ex_cls vals →
       vals !! f_name (filler "2x")
       = MapStruct.default_values ex_fields !! f_name (filler "2x"))
  ∧ (∀ vals b, MapStruct.pack ex_cls vals = Ok b →
       take 2 (drop 6 b) = [x00; x00]).
Proof.
  pose proof (filler_fields_reserved "Ex" ex_fields ex_cls (filler "2x")
                {| count := 2; code := Pad |}
                ltac:(vm_compute; reflexivity) ltac:(vm_compute; reflexivity)
                ltac:(simpl; right; right; left; reflexivity)
                ltac:(vm_compute; reflexivity) ltac:(vm_compute; reflexivity))
    as (Hb & Hk & Hv & _).
  split; [exact Hk|]. split; [exact Hv|].
  exact (proj2 (Hb [field "id" "4s" (VStr []); field "count" "h" (VInt 0)] []
                  eq_refl)).
Defined.

(** * Further properties of the code *)

(** ** [pack16], [unpack16], [pack32], [unpack32] *)

Lemma le_value_bound (b : pybytes) :
  (0 <= le_value b < 2 ^ (8 * Z.of_nat (length b)))%Z.
Proof.
  induction b as [|x b IH]; [simpl; lia|].
  cbn [le_value length]. pose proof (Byte.to_N_bounded x).
  replace (8 * Z.of_nat (S (length b)))%Z with (8 + 8 * Z.of_nat (length b))%Z by lia.
  rewrite Z.pow_add_r by lia. change (2 ^ 8)%Z with 256%Z. lia.
Qed.

Lemma le_bytes_le_value (b : pybytes) : le_bytes (length b) (le_value b) = b.
Proof.
  induction b as [|x b IH]; [done|].
  cbn [le_value length le_bytes]. pose proof (Byte.to_N_bounded x).
  replace (Z.of_N (Byte.to_N x) + 256 * le_value b)%Z
    with (Z.of_N (Byte.to_N x) + le_value b * 256)%Z by lia.
  f_equal.
  - unfold byte_of_Z. rewrite Z.mod_add by lia.
    rewrite Z.mod_small by lia. rewrite N2Z.id. apply byte_of_N_to_N.
  - rewrite Z.div_add by lia. rewrite Z.div_small by lia. apply IH.
Qed.

(** The bytes of an integer depend on it modulo [2 ^ (8 * w)] only. *)
Lemma le_bytes_shift (w : nat) (z k : Z) :
  le_bytes w (z + k * 2 ^ (8 * Z.of_nat w)) = le_bytes w z.
Proof.
  revert z k. induction w as [|w IH]; intros z k; [done|].
  cbn [le_bytes].
  replace (8 * Z.of_nat (S w))%Z with (8 + 8 * Z.of_nat w)%Z by lia.
  rewrite Z.pow_add_r by lia. change (2 ^ 8)%Z with 256%Z.
  replace (z + k * (256 * 2 ^ (8 * Z.of_nat w)))%Z
    with (z + (k * 2 ^ (8 * Z.of_nat w)) * 256)%Z by lia.
  f_equal.
  - unfold byte_of_Z. by rewrite Z.mod_add by lia.
  - rewrite Z.div_add by lia. apply IH.
Qed.

Lemma unpack_int_range (sg : bool) (w : nat) (b : pybytes) (z : Z) :
  (0 < w)%nat → length b ≤ w → unpack_int sg w b = VInt z →
  (int_min sg w <= z <= int_max sg w)%Z.
Proof.
  intros Hw Hl. unfold unpack_int, int_min, int_max.
  pose proof (le_value_bound b) as Hb.
  assert (HM : (2 ^ (8 * Z.of_nat w) = 2 * 2 ^ (8 * Z.of_nat w - 1))%Z).
  { rewrite <- Z.pow_succ_r by lia. f_equal. lia. }
  assert (Hle : (2 ^ (8 * Z.of_nat (length b)) <= 2 ^ (8 * Z.of_nat w))%Z)
    by (apply Z.pow_le_mono_r; lia).
  destruct sg; simpl.
  - destruct (Z.leb_spec (2 ^ (8 * Z.of_nat w - 1)) (le_value b));
      intros [= <-]; lia.
  - intros [= <-]. lia.
Qed.

Lemma pack_unpack_int_bytes (sg : bool) (w : nat) (b : pybytes) :
  length b = w → ∃ z, unpack_int sg w b = VInt z ∧ le_bytes w z = b.
Proof.
  intros Hl. unfold unpack_int. eexists. split; [done|].
  destruct (sg && _).
  - replace (le_value b - 2 ^ (8 * Z.of_nat w))%Z
      with (le_value b + (-1) * 2 ^ (8 * Z.of_nat w))%Z by lia.
    rewrite le_bytes_shift, <- Hl. apply le_bytes_le_value.
  - rewrite <- Hl. apply le_bytes_le_value.
Qed.

Lemma pack16_int (v : Value) : pack16 v = pack_int true 2 v.
Proof.
  unfold pack16, pack_le, struct_pack. simpl. unfold pack_item. simpl.
  destruct (pack_int true 2 v) as [b|]; simpl; [|done]. by rewrite !app_nil_r.
Qed.

Lemma pack32_int (v : Value) : pack32 v = pack_int true 4 v.
Proof.
  unfold pack32, pack_le, struct_pack. simpl. unfold pack_item. simpl.
  destruct (pack_int true 4 v) as [b|]; simpl; [|done]. by rewrite !app_nil_r.
Qed.

Lemma unpack16_bytes (b : pybytes) :
  unpack16 (VBytes b)
  = if Nat.eqb (length b) 2 then Ok (unpack_int true 2 b)
    else Raise (struct_error BadSize).
Proof.
  unfold unpack16, unpack_le, struct_unpack. simpl.
  destruct (Nat.eqb_spec (length b) 2) as [Hl|]; [|done]. simpl.
  unfold item0, item_size. simpl. rewrite take_take. simpl.
  by rewrite take_ge by lia.
Qed.

Lemma unpack32_bytes (b : pybytes) :
  unpack32 (VBytes b)
  = if Nat.eqb (length b) 4 then Ok (unpack_int true 4 b)
    else Raise (struct_error BadSize).
Proof.
  unfold unpack32, unpack_le, struct_unpack. simpl.
  destruct (Nat.eqb_spec (length b) 4) as [Hl|]; [|done]. simpl.
  unfold item0, item_size. simpl. rewrite take_take. simpl.
  by rewrite take_ge by lia.
Qed.

Lemma pack_int_ok (sg : bool) (w : nat) (z : Z) :
  (int_min sg w <= z <= int_max sg w)%Z →
  pack_int sg w (VInt z) = Ok (le_bytes w z).
Proof.
  intros Hz. unfold pack_int.
  destruct (Z.leb_spec (int_min sg w) z); [|lia].
  by destruct (Z.leb_spec z (int_max sg w)); [|lia].
Qed.

(** X1: an integer in the range of a signed short (of a signed long)
    comes back from [unpack16] after [pack16] (from [unpack32] after
    [pack32]). *)
Theorem unpack_pack_16_32 :
  (∀ n : Z, (-32768 <= n <= 32767)%Z →
     rbind (pack16 (VInt n)) (λ b, unpack16 (VBytes b)) = Ok (VInt n))
  ∧ (∀ n : Z, (-2147483648 <= n <= 2147483647)%Z →
       rbind (pack32 (VInt n)) (λ b, unpack32 (VBytes b)) = Ok (VInt n)).
Proof.
  split; intros n Hn.
  - assert (Hr : (int_min true 2 <= n <= int_max true 2)%Z)
      by (change (-32768 <= n <= 32767)%Z; lia).
    rewrite pack16_int, (pack_int_ok true 2) by done. cbn [rbind].
    rewrite unpack16_bytes, length_le_bytes. cbn [Nat.eqb].
    by rewrite (unpack_pack_int true 2 n).
  - assert (Hr : (int_min true 4 <= n <= int_max true 4)%Z)
      by (change (-2147483648 <= n <= 2147483647)%Z; lia).
    rewrite pack32_int, (pack_int_ok true 4) by done. cbn [rbind].
    rewrite unpack32_bytes, length_le_bytes. cbn [Nat.eqb].
    by rewrite (unpack_pack_int true 4 n).
Qed.

Lemma unpack_pack_16_32_witness :
  rbind (pack16 (VInt (-2))) (λ b, unpack16 (VBytes b)) = Ok (VInt (-2))
  ∧ rbind (pack32 (VInt 70000)) (λ b, unpack32 (VBytes b)) = Ok (VInt 70000).
Proof.
  split.
  - apply (proj1 unpack_pack_16_32 (-2)%Z). lia.
  - apply (proj2 unpack_pack_16_32 70000%Z). lia.
Defined.

(** X2: a buffer of 2 bytes comes back from [pack16] after [unpack16],
    a buffer of 4 bytes from [pack32] after [unpack32]. *)
Theorem pack_unpack_16_32 :
  (∀ b : pybytes, length b = 2%nat →
     rbind (unpack16 (VBytes b)) pack16 = Ok b)
  ∧ (∀ b : pybytes, length b = 4%nat →
       rbind (unpack32 (VBytes b)) pack32 = Ok b).
Proof.
  split; intros b Hl.
  - rewrite unpack16_bytes, Hl. cbn [Nat.eqb rbind]. rewrite pack16_int.
    destruct (pack_unpack_int_bytes true 2 b Hl) as (z & Hz & Hb).
    rewrite Hz, pack_int_ok, Hb; [done|].
    apply (unpack_int_range true 2 b); [lia | lia | done].
  - rewrite unpack32_bytes, Hl. cbn [Nat.eqb rbind]. rewrite pack32_int.
    destruct (pack_unpack_int_bytes true 4 b Hl) as (z & Hz & Hb).
    rewrite Hz, pack_int_ok, Hb; [done|].
    apply (unpack_int_range true 4 b); [lia | lia | done].
Qed.

Lemma pack_unpack_16_32_witness :
  rbind (unpack16 (VBytes [xfe; xff])) pack16 = Ok [xfe; xff]
  ∧ rbind (unpack32 (VBytes [x01; x02; x03; x84])) pack32
    = Ok [x01; x02; x03; x84].
Proof.
  split.
  - apply (proj1 pack_unpack_16_32 [xfe; xff]). reflexivity.
  - apply (proj2 pack_unpack_16_32 [x01; x02; x03; x84]). reflexivity.
Defined.

(** ** [zstrip] and [zpad] *)

Lemma zstrip_clean_str (s : pystr) :
  contains_nul s = false → zstrip (VStr s) = Ok (VStr s).
Proof. intros Hs. unfold zstrip. by rewrite Hs. Qed.

(** X4: [zstrip] is idempotent: stripping what [zstrip] returned gives
    the same text again. *)
Theorem zstrip_idempotent (v w : Value) :
  zstrip v = Ok w → zstrip w = Ok w.
Proof.
  intros (s & -> & Hs)%zstrip_no_nul. by apply zstrip_clean_str.
Qed.

Lemma zstrip_idempotent_witness :
  zstrip (VStr (py "AB")) = Ok (VStr (py "AB")).
Proof.
  apply (zstrip_idempotent (VBytes (pyb "AB" ++ [x00; x43])) (VStr (py "AB"))).
  vm_compute. reflexivity.
Defined.

Lemma strip_nul_split (s : pystr) :
  contains_nul s = true →
  ∃ t, s = take (index_nul s) s ++ 0%N :: t.
Proof.
  unfold contains_nul. induction s as [|c s IH]; simpl; [done|].
  destruct c as [|p]; simpl.
  - intros _. by exists s.
  - intros Hs. destruct (IH Hs) as [t Ht]. exists t. by rewrite <- Ht.
Qed.

(** X5: on a [str], [zstrip] returns the text before the first NUL
    character (all of it when it holds none): it cuts at the first NUL, not
    only trailing ones. *)
Theorem zstrip_cuts_at_first_nul (s : pystr) :
  ∃ p, zstrip (VStr s) = Ok (VStr p)
       ∧ contains_nul p = false
       ∧ (s = p ∨ ∃ t, s = p ++ 0%N :: t).
Proof.
  unfold zstrip. destruct (contains_nul s) eqn:Hs.
  - eexists. split; [done|]. split; [apply take_index_nul|].
    right. by apply strip_nul_split.
  - exists s. by repeat split; [|left].
Qed.

Lemma decode_ascii_ignore_bound (b : pybytes) :
  Forall (λ c, c < 128)%N (decode_ascii_ignore b)
  ∧ length (decode_ascii_ignore b) ≤ length b.
Proof.
  unfold decode_ascii_ignore. induction b as [|x b [IH1 IH2]]; simpl.
  { split; [constructor | lia]. }
  destruct (N.ltb_spec (Byte.to_N x) 128); simpl.
  - split; [by constructor | lia].
  - split; [done | lia].
Qed.

Lemma strip_nul_text (s : pystr) :
  Forall (λ c, c < 128)%N s →
  is_text (strip_nul s) = true ∧ length (strip_nul s) ≤ length s.
Proof.
  unfold strip_nul, is_text, contains_nul.
  induction 1 as [|c s Hc Hs [IH1 IH2]]; simpl; [split; [done | lia]|].
  destruct c as [|p]; simpl; [split; [done | lia]|].
  destruct (existsb (N.eqb 0) s); simpl in *.
  - rewrite IH1. split; [|lia].
    by destruct (N.ltb_spec (N.pos p) 128); [|lia].
  - rewrite IH1. split; [|lia].
    by destruct (N.ltb_spec (N.pos p) 128); [|lia].
Qed.

(** X6: on [bytes], [zstrip] returns a text of ASCII characters other
    than NUL that is no longer than the buffer; on a value that is neither
    [str] nor [bytes] it raises [TypeError]. *)
Theorem zstrip_bytes_text :
  (∀ b : pybytes, ∃ p,
     zstrip (VBytes b) = Ok (VStr p)
     ∧ is_text p = true ∧ length p ≤ length b)
  ∧ zstrip VNone = Raise TypeError
  ∧ (∀ n, zstrip (VInt n) = Raise TypeError).
Proof.
  split; [|done]. intros b. rewrite zstrip_bytes. eexists. split; [done|].
  destruct (decode_ascii_ignore_bound b) as [Hb Hl].
  destruct (strip_nul_text _ Hb). split; [done | lia].
Qed.

(** X7: [zpad] returns 8 bytes for every [str] of Latin-1 characters,
    whatever its length; it raises [UnicodeEncodeError] for a [str] with
    another character and [AttributeError] for a value that is no [str]. *)
Theorem zpad_cases :
  (∀ s : pystr, forallb (λ c, c <? 256)%N s = true →
     ∃ b, zpad (VStr s) = Ok (VBytes b) ∧ length b = 8%nat)
  ∧ (∀ s : pystr, forallb (λ c, c <? 256)%N s = false →
       zpad (VStr s) = Raise UnicodeEncodeError)
  ∧ (∀ v, (∀ s, v ≠ VStr s) → zpad v = Raise AttributeError).
Proof.
  split; [|split].
  - intros s Hs. rewrite zpad_str by done. eexists. split; [done|].
    rewrite length_app, length_take, length_replicate, length_map. lia.
  - intros s Hs. unfold zpad, six_b. by rewrite Hs.
  - intros v Hv. destruct v as [| |s|]; try done. by destruct (Hv s).
Qed.

Lemma zpad_cases_witness :
  (∃ b, zpad (VStr (py "TOOLONGNAME")) = Ok (VBytes b) ∧ length b = 8%nat)
  ∧ zpad (VStr [8364%N]) = Raise UnicodeEncodeError
  ∧ zpad (VBytes (pyb "AB")) = Raise AttributeError.
Proof.
  split; [|split].
  - apply (proj1 zpad_cases (py "TOOLONGNAME")). vm_compute. reflexivity.
  - apply (proj1 (proj2 zpad_cases) [8364%N]). vm_compute. reflexivity.
  - apply (proj2 (proj2 zpad_cases) (VBytes (pyb "AB"))). intros s. discriminate.
Defined.

(** ** Generated properties *)

(** X8: for a non-filler field of a compiled class, assigning a value
    through [setattr] and reading the field back gives what the setter
    stores (the value itself, or for a string field its text up to the
    first NUL), and no other entry changes; when the setter raises (a
    string field given a value that is no text) the mapping is unchanged. *)
Theorem setattr_then_getattr (name : string) (fields : list FieldSpec)
    (cls : StructClass) (f : FieldSpec) (value : Value)
    (vals : gmap Name Value) :
  StructMeta.__new__ name fields = Ok cls →
  wf_fields fields = true →
  In f fields → is_filler f = false →
  (∀ w, store f value = Ok w →
     ∃ vals', setattr cls (f_name f) value vals = (vals', Ok ())
       ∧ getattr cls (f_name f) vals' = Ok w
       ∧ ∀ n, n ≠ f_name f → vals' !! n = vals !! n)
  ∧ (∀ e, store f value = Raise e →
       setattr cls (f_name f) value vals = (vals, Raise e))
  ∧ (is_string f = false → store f value = Ok value)
  ∧ (is_string f = true → store f value = zstrip value).
Proof.
  intros Hnew Hwf Hf Hx.
  pose proof (setattr_field name fields cls Hnew Hwf f value vals Hf Hx) as Hset.
  split; [|split; [|split]].
  - intros w Hw. rewrite Hw in Hset. eexists. split; [exact Hset|]. split.
    + rewrite (getattr_field name fields cls Hnew Hwf f _ Hf Hx).
      by rewrite lookup_insert_eq.
    + intros n Hn. by rewrite lookup_insert_ne.
  - intros e He. by rewrite He in Hset.
  - unfold store. by intros ->.
  - unfold store. by intros ->.
Qed.

Lemma setattr_then_getattr_witness :
  ∃ vals', setattr ex_cls (Some "id"%string) (VBytes (pyb "AB" ++ [x00; x43])) ex_long
           = (vals', Ok ())
    ∧ getattr ex_cls (Some "id"%string) vals' = Ok (VStr (py "AB")).
Proof.
  destruct (proj1 (setattr_then_getattr "Ex" ex_fields ex_cls
                     (field "id" "4s" (VStr []))
                     (VBytes (pyb "AB" ++ [x00; x43])) ex_long
                     ltac:(vm_compute; reflexivity) ltac:(vm_compute; reflexivity)
                     ltac:(simpl; left; reflexivity) ltac:(vm_compute; reflexivity))
              (VStr (py "AB")) ltac:(vm_compute; reflexivity))
    as (vals' & Hs & Hg & _).
  exists vals'. split; [exact Hs | exact Hg].
Defined.

(** ** Textual form and equality *)

(** X10: on every instance of a compiled class that the constructor, the
    setters and [unpack] can leave behind, [__str__] returns (no name is
    missing from the mapping) and lists every field of [__fields__], in
    declaration order, as [name=value] joined by [", "]. *)
Theorem str_lists_every_field (name : string) (fields : list FieldSpec)
    (cls : StructClass) (vals : gmap Name Value) :
  StructMeta.__new__ name fields = Ok cls →
  reachable cls vals →
  MapStruct.__str__ cls vals
  = Ok (join (py ", ")
          (map (λ f, str_of_name (f_name f) ++ py "="
                     ++ str_of_value (default VNone (vals !! f_name f)))
             fields))
  ∧ ∀ f, In f fields → is_Some (vals !! f_name f).
Proof.
  intros Hnew Hr.
  destruct (reachable_inv name fields cls Hnew vals Hr) as [_ Hdom].
  split; [by apply (str_total name) | done].
Qed.

Lemma str_lists_every_field_witness :
  MapStruct.__str__ ex_cls ex_ab
  = Ok (join (py ", ")
          (map (λ f, str_of_name (f_name f) ++ py "="
                     ++ str_of_value (default VNone (ex_ab !! f_name f)))
             ex_fields)).
Proof.
  apply (proj1 (str_lists_every_field "Ex" ex_fields ex_cls ex_ab
                  ltac:(vm_compute; reflexivity) (reach_init ex_cls _ _))).
Defined.

(** X11: equality follows the fields: after an assignment to a
    non-filler field, the instance is equal to the one before exactly when
    the field already held the stored value. *)
Theorem eq_after_setattr (name : string) (fields : list FieldSpec)
    (cls : StructClass) (f : FieldSpec) (value w : Value)
    (vals : gmap Name Value) :
  StructMeta.__new__ name fields = Ok cls →
  wf_fields fields = true →
  In f fields → is_filler f = false →
  store f value = Ok w →
  MapStruct.__eq__ {| klass := cls; _values := vals |}
    {| klass := cls; _values := (setattr cls (f_name f) value vals).1 |} = true
  ↔ vals !! f_name f = Some w.
Proof.
  intros Hnew Hwf Hf Hx Hw.
  rewrite (setattr_field name fields cls Hnew Hwf f value vals Hf Hx), Hw.
  unfold MapStruct.__eq__. simpl.
  rewrite bool_decide_eq_true_2 by done. simpl. rewrite bool_decide_eq_true.
  split.
  - intros Heq. by rewrite Heq, lookup_insert_eq.
  - intros Hv. by rewrite insert_id.
Qed.

Lemma eq_after_setattr_witness :
  MapStruct.__eq__ {| klass := ex_cls; _values := ex_ab |}
    {| klass := ex_cls;
       _values := (setattr ex_cls (Some "count"%string) (VInt 5) ex_ab).1 |} = true.
Proof.
  apply (eq_after_setattr "Ex" ex_fields ex_cls (field "count" "h" (VInt 0))
           (VInt 5) (VInt 5) ex_ab
           ltac:(vm_compute; reflexivity) ltac:(vm_compute; reflexivity)
           ltac:(simpl; right; left; reflexivity) ltac:(vm_compute; reflexivity)
           ltac:(vm_compute; reflexivity)).
  vm_compute. reflexivity.
Defined.

(** ** What the metaclass builds *)

Lemma lookup_foldl_insert_is_Some {V : Type} (keep : FieldSpec → bool)
    (val : FieldSpec → V) (l : list FieldSpec) (d : gmap Name V)
    (f : FieldSpec) :
  In f l → keep f = true →
  is_Some (foldl (λ d f, if keep f then <[f_name f := val f]> d else d) d l
             !! f_name f).
Proof.
  induction l as [|a l IH] using rev_ind; intros Hin Kf; [done|].
  rewrite foldl_app. simpl.
  apply in_app_iff in Hin as [Hin|[->|[]]].
  - destruct (keep a); [|by apply IH].
    destruct (decide (f_name a = f_name f)) as [->|Hne].
    + rewrite lookup_insert_eq. eauto.
    + rewrite lookup_insert_ne by done. by apply IH.
  - rewrite Kf, lookup_insert_eq. eauto.
Qed.

Lemma keys_match_layout (name : string) (fields : list FieldSpec)
    (cls : StructClass) :
  StructMeta.__new__ name fields = Ok cls →
  wf_fields fields = true →
  ∀ fs, (∀ f, In f fs → In f fields) →
        length (key_names fs) = struct_nvals (layout fs).
Proof.
  intros Hnew Hwf fs. induction fs as [|f fs IH]; intros Hsub; [done|].
  assert (Hf : In f fields) by (apply Hsub; by left).
  destruct (field_has_item name fields cls Hnew Hwf f Hf) as [it Hit].
  rewrite key_names_cons, (field_item_filler f it Hit).
  unfold layout. simpl. rewrite Hit. simpl. fold (layout fs).
  unfold item_nvals.
  rewrite <- IH by (intros g Hg; apply Hsub; by right).
  destruct (code it) as [| |sg w] eqn:Ec; simpl; try done.
  by rewrite (field_item_count f it sg w Hit Ec).
Qed.

(** X12: a class that compiles keeps its field list, has as [_keys] the
    names of the fields whose type code holds no ['x'], in declaration
    order, has a generated property exactly for those names, and has the
    joined type codes after ["<"] as format.  When the type codes are
    single items, its size is the sum of the widths of the fields, and the
    format takes as many values as there are keys. *)
Theorem new_builds_class (name : string) (fields : list FieldSpec)
    (cls : StructClass) :
  StructMeta.__new__ name fields = Ok cls →
  __fields__ cls = fields
  ∧ _keys cls = key_names fields
  ∧ (∀ k, is_Some (properties cls !! k) ↔ k ∈ _keys cls)
  ∧ format (_struct cls) = String "<" (StructMeta.join_types fields)
  ∧ (wf_fields fields = true →
       MapStruct.size cls = struct_size (layout fields)
       ∧ length (_keys cls) = struct_nvals (items (_struct cls))).
Proof.
  intros Hnew. pose proof (new_inv _ _ _ Hnew) as (Ht & Hs & Hfl & Hp & Hk).
  split; [done|]. split; [done|]. split; [|split].
  - intros k. rewrite Hk. split.
    + intros [f Hf]. destruct (prop_inv name fields cls Hnew k f Hf) as (? & ? & <-).
      apply in_key_names. eauto.
    + intros (f & Hf & Hx & <-)%in_key_names. rewrite Hp. unfold props_of.
      apply (lookup_foldl_insert_is_Some (λ f, negb (is_filler f)) id);
        [done | by rewrite Hx].
  - rewrite new_typed in Hnew by done.
    destruct (scan None _); [|done]. simpl in Hnew. by injection Hnew as <-.
  - intros Hwf. split; [by apply (cls_size name)|].
    rewrite Hk, (cls_items name fields cls Hnew Hwf).
    by apply (keys_match_layout name fields cls).
Qed.

Lemma new_builds_class_witness :
  _keys ex_cls = key_names ex_fields
  ∧ MapStruct.size ex_cls = struct_size (layout ex_fields).
Proof.
  pose proof (new_builds_class "Ex" ex_fields ex_cls
                ltac:(vm_compute; reflexivity)) as (_ & Hk & _ & _ & Hs).
  split; [exact Hk|]. exact (proj1 (Hs ltac:(vm_compute; reflexivity))).
Defined.

(** ** Names that are never written *)

Lemma setattr_frame (name : string) (fields : list FieldSpec)
    (cls : StructClass) key value vals n :
  StructMeta.__new__ name fields = Ok cls →
  n ∉ _keys cls → (setattr cls key value vals).1 !! n = vals !! n.
Proof.
  intros Hnew Hn.
  destruct (setattr_cases name fields cls Hnew key value vals)
    as [->|[->|(f & Hf & Hx & Hk & ->)]]; try done.
  destruct (store f value); [|done]. simpl.
  rewrite lookup_insert_ne; [done|]. intros <-. apply Hn.
  rewrite (cls_keys name fields cls Hnew). apply in_key_names. eauto.
Qed.

(** X13: the setters, [unpack] and the constructor of a compiled class
    write only names of [_keys]: every other entry of the mapping (a
    filler's, or any foreign name) is left as it was, also when the call
    raises; after construction it holds the default. *)
Theorem writes_only_keys (name : string) (fields : list FieldSpec)
    (cls : StructClass) (n : Name) :
  StructMeta.__new__ name fields = Ok cls →
  n ∉ _keys cls →
  (∀ key value vals, (setattr cls key value vals).1 !! n = vals !! n)
  ∧ (∀ data vals, (MapStruct.unpack cls data vals).1 !! n = vals !! n)
  ∧ (∀ args kwargs,
       (MapStruct.__init__ cls args kwargs).1 !! n
       = MapStruct.default_values fields !! n).
Proof.
  intros Hnew Hn. split; [|split].
  - intros key value vals. by apply (setattr_frame name fields).
  - intros data vals. unfold MapStruct.unpack.
    destruct (struct_unpack _ data) as [vs|]; [|done].
    apply (for_each_preserves (λ m, m !! n = vals !! n)); [|done].
    intros kv m Hm. by rewrite (setattr_frame name fields).
  - intros args kwargs. apply (reachable_outside name fields cls Hnew); [|done].
    apply reach_init.
Qed.

Lemma writes_only_keys_witness :
  (MapStruct.unpack ex_cls (VBytes (pyb "AB")) ex_long).1 !! Some "colour"%string
  = ex_long !! Some "colour"%string.
Proof.
  apply (proj1 (proj2 (writes_only_keys "Ex" ex_fields ex_cls
                         (Some "colour"%string)
                         ltac:(vm_compute; reflexivity)
                         ltac:(vm_compute; intros H;
                               inversion H as [|? ? ? H1]; subst;
                               inversion H1 as [|? ? ? H2]; subst;
                               inversion H2)))).
Defined.

(** ** The bytes [pack] writes *)

Lemma resize_padded (n : nat) (l : pybytes) :
  take n (take 8 l ++ replicate (8 - length l) x00)
    ++ replicate (n - length (take 8 l ++ replicate (8 - length l) x00)) x00
  = resize n x00 (take 8 l).
Proof.
  rewrite resize_spec, length_app, length_replicate, !length_take.
  rewrite take_app, take_replicate, length_take, <- app_assoc, <- replicate_add.
  do 2 f_equal. lia.
Qed.

Lemma zpad_ok_inv (v w : Value) :
  zpad v = Ok w →
  ∃ s, v = VStr s ∧ forallb (λ c, c <? 256)%N s = true.
Proof.
  unfold zpad, six_b. destruct v as [| |s|]; try done.
  destruct (forallb _ s) eqn:Hs; [|done]. eauto.
Qed.

Section packing.
Variables (name : string) (fields : list FieldSpec) (cls : StructClass).
Hypothesis Hnew : StructMeta.__new__ name fields = Ok cls.
Hypothesis Hwf : wf_fields fields = true.

Lemma filler_not_key f : In f fields → is_filler f = true →
  bool_decide (f_name f ∈ _keys cls) = false.
Proof.
  intros Hf Hx. apply bool_decide_eq_false_2.
  rewrite (cls_keys name fields cls Hnew). by apply (wf_filler_name fields Hwf).
Qed.

Lemma field_is_key f : In f fields → is_filler f = false →
  bool_decide (f_name f ∈ _keys cls) = true.
Proof.
  intros Hf Hx. apply bool_decide_eq_true_2.
  rewrite (cls_keys name fields cls Hnew). apply in_key_names. eauto.
Qed.

(** [pack] on values that [Struct.pack] takes. *)
Lemma pack_fields fs vals :
  (∀ f, In f fs → In f fields) →
  (∀ f, In f fs → is_filler f = false →
     ∃ v, vals !! f_name f = Some v ∧ packable f v = true) →
  ∃ ps, MapStruct.packs cls fs vals = Ok ps
    ∧ length ps = struct_nvals (layout fs)
    ∧ pack_items (layout fs) ps = Ok (encode_fields fs vals).
Proof.
  induction fs as [|f fs IH]; intros Hsub Hp.
  { exists []. by repeat split. }
  assert (Hf : In f fields) by (apply Hsub; by left).
  destruct IH as (ps & Hps & Hlen & Hbs).
  { intros g Hg. apply Hsub. by right. }
  { intros g Hg. apply Hp. by right. }
  destruct (field_has_item name fields cls Hnew Hwf f Hf) as [it Hit].
  pose proof (field_item_filler f it Hit) as Hx.
  pose proof (field_item_string f it Hit) as Hs.
  cbn [MapStruct.packs encode_fields].
  rewrite (char_in_s name fields cls Hnew f Hf). cbn [rbind].
  unfold layout. cbn [flat_map]. rewrite Hit. cbn [app]. fold (layout fs).
  cbn [pack_items struct_nvals foldr]. fold (struct_nvals (layout fs)).
  unfold item_nvals, pack_item.
  destruct (code it) as [| |sg w] eqn:Ec; rewrite Hs.
  - rewrite (filler_not_key f Hf Hx). exists ps.
    rewrite drop_0, Hbs. by repeat split.
  - destruct (Hp f (or_introl eq_refl) Hx) as (v & Hv & Hpv).
    unfold packable in Hpv. rewrite Hit, Ec in Hpv.
    destruct v as [| |s|]; try done.
    rewrite (getattr_field name fields cls Hnew Hwf f vals Hf Hx), Hv.
    cbn [rbind]. rewrite zpad_str by done. cbn [rbind]. rewrite Hps.
    cbn [rbind]. eexists. split; [done|].
    cbn [take drop length]. rewrite drop_0, Hbs. cbn [rbind].
    rewrite <- (length_map byte_of_N s), resize_padded.
    split; [by rewrite Hlen | done].
  - destruct (Hp f (or_introl eq_refl) Hx) as (v & Hv & Hpv).
    unfold packable in Hpv. rewrite Hit, Ec in Hpv.
    destruct v as [|z| |]; try done.
    rewrite (field_is_key f Hf Hx).
    rewrite (getattr_field name fields cls Hnew Hwf f vals Hf Hx), Hv.
    cbn [rbind]. rewrite Hps. cbn [rbind]. eexists. split; [done|].
    rewrite (field_item_count f it sg w Hit Ec).
    cbn [take drop length pack_ints pack_int]. rewrite drop_0, take_0, Hbs.
    rewrite Hpv. cbn [pack_ints rbind]. rewrite app_nil_r.
    split; [by rewrite Hlen | done].
Qed.

(** What [pack] needs to return. *)
Lemma pack_fields_inv fs vals : ∀ ps bs,
  (∀ f, In f fs → In f fields) →
  MapStruct.packs cls fs vals = Ok ps →
  pack_items (layout fs) ps = Ok bs →
  ∀ f, In f fs → is_filler f = false →
    ∃ v, vals !! f_name f = Some v ∧ packable f v = true.
Proof.
  induction fs as [|f fs IH]; intros ps bs Hsub; [done|].
  assert (Hf : In f fields) by (apply Hsub; by left).
  assert (Hfs : ∀ g, In g fs → In g fields) by (intros g Hg; apply Hsub; by right).
  destruct (field_has_item name fields cls Hnew Hwf f Hf) as [it Hit].
  pose proof (field_item_filler f it Hit) as Hx.
  pose proof (field_item_string f it Hit) as Hs.
  cbn [MapStruct.packs].
  rewrite (char_in_s name fields cls Hnew f Hf). cbn [rbind].
  unfold layout. cbn [flat_map]. rewrite Hit. cbn [app]. fold (layout fs).
  cbn [pack_items]. unfold item_nvals, pack_item, packable.
  destruct (code it) as [| |sg w] eqn:Ec; rewrite Hs.
  - rewrite (filler_not_key f Hf Hx), drop_0. cbn [rbind].
    intros Hps Hbs.
    destruct (pack_items (layout fs) ps) as [bs'|] eqn:Ebs; [|done].
    intros g [<-|Hg] Hg'; [congruence|]. by apply (IH ps bs').
  - rewrite (getattr_field name fields cls Hnew Hwf f vals Hf Hx).
    destruct (vals !! f_name f) as [v|] eqn:Hv; [|done]. cbn [rbind].
    destruct (zpad v) as [p|] eqn:Hp; [|done]. cbn [rbind].
    destruct (MapStruct.packs cls fs vals) as [ps'|] eqn:Eps; [|done].
    cbn [rbind]. intros [= <-]. cbn [take drop].
    destruct (match p with VBytes b => _ | _ => _ end); [|done]. cbn [rbind].
    rewrite drop_0.
    destruct (pack_items (layout fs) ps') as [bs'|] eqn:Ebs; [|done].
    intros _ g [<-|Hg] Hg'; [|by apply (IH ps' bs')].
    apply zpad_ok_inv in Hp as (s & -> & Hs').
    exists (VStr s). by rewrite Hit, Ec.
  - rewrite (field_is_key f Hf Hx).
    rewrite (getattr_field name fields cls Hnew Hwf f vals Hf Hx).
    destruct (vals !! f_name f) as [v|] eqn:Hv; [|done]. cbn [rbind].
    destruct (MapStruct.packs cls fs vals) as [ps'|] eqn:Eps; [|done].
    cbn [rbind]. intros [= <-].
    rewrite (field_item_count f it sg w Hit Ec). cbn [take drop pack_ints].
    rewrite take_0, drop_0. cbn [pack_ints].
    destruct (pack_int sg w v) as [bv|] eqn:Ev; [|done]. cbn [rbind].
    destruct (pack_items (layout fs) ps') as [bs'|] eqn:Ebs; [|done].
    intros _ g [<-|Hg] Hg'; [|by apply (IH ps' bs')].
    exists v. split; [done|]. rewrite Hit, Ec.
    unfold pack_int in Ev. destruct v as [|z| |]; try done.
    by destruct (_ && _).
Qed.

Lemma pack_returns_iff vals b :
  MapStruct.pack cls vals = Ok b
  ↔ (∀ f, In f fields → is_filler f = false →
       ∃ v, vals !! f_name f = Some v ∧ packable f v = true)
    ∧ b = encode_fields fields vals.
Proof.
  unfold MapStruct.pack.
  rewrite (cls_fields name fields cls Hnew), (cls_items name fields cls Hnew Hwf).
  split.
  - destruct (MapStruct.packs cls fields vals) as [ps|] eqn:Eps; [|done].
    cbn [rbind]. unfold struct_pack.
    destruct (Nat.eqb_spec (length ps) (struct_nvals (layout fields))); [|done].
    intros Hb.
    assert (Hp : ∀ f, In f fields → is_filler f = false →
              ∃ v, vals !! f_name f = Some v ∧ packable f v = true)
      by (by apply (pack_fields_inv fields vals ps b)).
    split; [done|].
    destruct (pack_fields fields vals (λ f H, H) Hp) as (ps' & Hps' & _ & Hbs).
    rewrite Eps in Hps'. injection Hps' as <-. congruence.
  - intros [Hp ->].
    destruct (pack_fields fields vals (λ f H, H) Hp) as (ps & -> & Hlen & Hbs).
    cbn [rbind]. unfold struct_pack. by rewrite Hlen, Nat.eqb_refl.
Qed.

End packing.

(** X14: [pack] of an instance of a compiled class returns exactly when
    every non-filler field holds a value [Struct.pack] takes (an integer
    in the range of its code, a text of Latin-1 characters), and the
    buffer is then the bytes of the fields in declaration order: zero
    bytes for a filler, the first 8 bytes of a text cut or NUL-padded to
    the width of its field, the little-endian bytes of an integer. *)
Theorem pack_writes_fields (name : string) (fields : list FieldSpec)
    (cls : StructClass) (vals : gmap Name Value) (b : pybytes) :
  StructMeta.__new__ name fields = Ok cls →
  wf_fields fields = true →
  MapStruct.pack cls vals = Ok b
  ↔ (∀ f, In f fields → is_filler f = false →
       ∃ v, vals !! f_name f = Some v ∧ packable f v = true)
    ∧ b = encode_fields fields vals.
Proof. intros Hnew Hwf. by apply (pack_returns_iff name). Qed.

Lemma pack_writes_fields_witness :
  MapStruct.pack ex_cls ex_long = Ok (encode_fields ex_fields ex_long).
Proof.
  apply (pack_writes_fields "Ex" ex_fields ex_cls ex_long
           (encode_fields ex_fields ex_long)
           ltac:(vm_compute; reflexivity) ltac:(vm_compute; reflexivity)).
  split; [|reflexivity].
  intros f [<-|[<-|[<-|[]]]] Hx.
  - exists (VStr (py "TOOLONGNAME")). split; vm_compute; reflexivity.
  - exists (VInt 5). split; vm_compute; reflexivity.
  - vm_compute in Hx. discriminate Hx.
Defined.

(** ** Packing what [unpack] read *)

Lemma getentry_width c sg w : getentry c = Some (IntC sg w) → (0 < w)%nat.
Proof.
  unfold getentry.
  repeat match goal with
         | |- context [Ascii.eqb c ?y] =>
             destruct (Ascii.eqb_spec c y) as [->|?];
             [intros [= <- <-] || intros [=]; lia | ]
         end.
  done.
Qed.

Lemma field_item_width f it sg w :
  field_item f = Some it → code it = IntC sg w → (0 < w)%nat.
Proof.
  unfold field_item. destruct (f_type f) as [tc|]; [|done].
  intros Hi Hc. apply one_item_scan, scan_single in Hi as (c' & Hc' & _).
  rewrite Hc in Hc'. by apply (getentry_width c' sg w).
Qed.

Lemma write_all_lookup (m : gmap Name Value) (l : list (Name * Value)) k v :
  NoDup l.*1 → (k, v) ∈ l → write_all m l !! k = Some v.
Proof.
  unfold write_all. revert m.
  induction l as [|[k0 v0] l IH]; intros m; simpl.
  { intros _ []%elem_of_nil. }
  rewrite NoDup_cons, elem_of_cons. intros [Hk0 Hl] [[= -> ->]|Hin].
  - fold (write_all (<[k0:=v0]> m) l).
    by rewrite write_all_out, lookup_insert_eq.
  - by apply IH.
Qed.

Section decoding.
Variables (name : string) (fields : list FieldSpec) (cls : StructClass).
Hypothesis Hnew : StructMeta.__new__ name fields = Ok cls.
Hypothesis Hwf : wf_fields fields = true.

(** Every decoded value fits its field. *)
Lemma decode_fits fs : ∀ b,
  (∀ f, In f fs → In f fields) →
  (decode_fields fs b).*1 = key_names fs
  ∧ Forall (λ kv, ∃ f, In f fs ∧ is_filler f = false
                       ∧ f_name f = kv.1 ∧ fits f kv.2 = true)
      (decode_fields fs b).
Proof.
  induction fs as [|f fs IH]; intros b Hsub; [by split|].
  assert (Hf : In f fields) by (apply Hsub; by left).
  destruct (IH (drop (match field_item f with
                      | Some it => item_size it | None => 0%nat end) b))
    as [Hk Hv]; [intros g Hg; apply Hsub; by right|].
  assert (Hmono : Forall (λ kv, ∃ g, In g (f :: fs) ∧ is_filler g = false
                              ∧ f_name g = kv.1 ∧ fits g kv.2 = true)
            (decode_fields fs
               (drop (match field_item f with
                      | Some it => item_size it | None => 0%nat end) b))).
  { eapply Forall_impl; [exact Hv|]. intros kv (g & Hg & ?).
    exists g. split; [by right | done]. }
  destruct (field_has_item name fields cls Hnew Hwf f Hf) as [it Hit].
  pose proof (field_item_filler f it Hit) as Hx.
  rewrite Hit in Hk, Hmono.
  rewrite key_names_cons, Hx. cbn [decode_fields]. rewrite Hit.
  destruct (code it) as [| |sg w] eqn:Ec.
  - by split.
  - split; [cbn; by rewrite Hk|]. apply Forall_cons. split; [|done].
    exists f. split; [by left|]. split; [done|]. split; [done|].
    cbn. unfold fits. rewrite Hit, Ec.
    destruct (decode_ascii_ignore_bound (take (item_size it) b)) as [Hb Hl].
    destruct (strip_nul_text _ Hb) as [Ht Hl'].
    rewrite Ht. cbn. apply Nat.leb_le.
    unfold item_size in Hl, Hl' |- *. rewrite Ec in Hl, Hl' |- *.
    rewrite length_take in Hl. lia.
  - split; [cbn; by rewrite Hk|]. apply Forall_cons. split; [|done].
    exists f. split; [by left|]. split; [done|]. split; [done|].
    cbn. unfold fits. rewrite Hit, Ec.
    destruct (unpack_int sg w (take (item_size it) b)) as [|z| |] eqn:Eu;
      try (unfold unpack_int in Eu; discriminate Eu).
    apply (unpack_int_range sg w) in Eu.
    + apply andb_true_intro. split; apply Z.leb_le; lia.
    + by apply (field_item_width f it sg w).
    + rewrite length_take. unfold item_size.
      rewrite Ec, (field_item_count f it sg w Hit Ec). lia.
Qed.

Lemma unpack_fits b vals :
  length b = MapStruct.size cls →
  ∃ vals', MapStruct.unpack cls (VBytes b) vals = (vals', Ok ())
    ∧ ∀ f, In f fields → is_filler f = false →
        ∃ v, vals' !! f_name f = Some v ∧ fits f v = true.
Proof.
  intros Hl. rewrite (unpack_right_size name fields cls Hnew Hwf b vals Hl).
  eexists. split; [done|]. intros f Hf Hx.
  destruct (decode_fits fields b (λ g H, H)) as [Hk Hv].
  assert (Hin : f_name f ∈ (decode_fields fields b).*1).
  { rewrite Hk. apply in_key_names. eauto. }
  apply list_elem_of_fmap in Hin as ([k v] & Hkv & Hin). simpl in Hkv. subst k.
  exists v. split.
  - apply write_all_lookup; [|done]. rewrite Hk. apply (wf_nodup fields Hwf).
  - rewrite Forall_forall in Hv. destruct (Hv _ Hin) as (g & Hg & Hgx & Hgn & Hfit).
    simpl in Hgn, Hfit.
    by rewrite (key_field_inj fields Hwf f g Hf Hg Hx Hgx (eq_sym Hgn)).
Qed.

End decoding.

Lemma fits_packable f v : fits f v = true → packable f v = true.
Proof.
  unfold fits, packable. destruct (field_item f) as [it|]; [|done].
  destruct (code it), v; try done.
  intros [Ht _]%andb_prop. by apply is_text_encodable.
Qed.

Lemma fits_conforms f v :
  (∀ it, field_item f = Some it → code it = Str → count it ≤ 8) →
  fits f v = true → conforms f v = true.
Proof.
  unfold fits, conforms. destruct (field_item f) as [it|]; [|done].
  intros H8. destruct (code it) eqn:Ec, v; try done.
  intros [Ht Hl]%andb_prop. apply andb_true_intro. split; [done|].
  apply Nat.leb_le in Hl. apply Nat.leb_le.
  specialize (H8 it eq_refl Ec). lia.
Qed.

(** X15: after [unpack] of a buffer of the right size into an instance of
    a compiled class, every non-filler field holds a value that fits it (an
    integer in the range of its code, an ASCII text without NUL no longer
    than the field), so [pack] on that instance returns, with a buffer of
    the same length; and when no string field is wider than 8 bytes,
    [unpack] of that new buffer changes nothing. *)
Theorem unpack_then_pack (name : string) (fields : list FieldSpec)
    (cls : StructClass) (b : pybytes) (vals : gmap Name Value) :
  StructMeta.__new__ name fields = Ok cls →
  wf_fields fields = true →
  length b = MapStruct.size cls →
  ∃ vals' b',
    MapStruct.unpack cls (VBytes b) vals = (vals', Ok ())
    ∧ (∀ f, In f fields → is_filler f = false →
         ∃ v, vals' !! f_name f = Some v ∧ fits f v = true)
    ∧ MapStruct.pack cls vals' = Ok b'
    ∧ length b' = length b
    ∧ ((∀ f it, In f fields → field_item f = Some it → code it = Str →
          count it ≤ 8) →
       MapStruct.unpack cls (VBytes b') vals' = (vals', Ok ())).
Proof.
  intros Hnew Hwf Hl.
  destruct (unpack_fits name fields cls Hnew Hwf b vals Hl) as (vals' & Hu & Hfit).
  assert (Hp : ∀ f, In f fields → is_filler f = false →
            ∃ v, vals' !! f_name f = Some v ∧ packable f v = true).
  { intros f Hf Hx. destruct (Hfit f Hf Hx) as (v & Hv & Hfv).
    exists v. split; [done | by apply fits_packable]. }
  assert (Hpack : MapStruct.pack cls vals' = Ok (encode_fields fields vals'))
    by (by apply (pack_returns_iff name fields cls Hnew Hwf)).
  exists vals', (encode_fields fields vals').
  split; [done|]. split; [done|]. split; [done|]. split.
  - rewrite Hl. unfold MapStruct.pack in Hpack.
    destruct (MapStruct.packs cls _ vals') as [ps|]; [|done].
    by apply length_struct_pack in Hpack.
  - intros H8.
    assert (Hc : conformant fields vals').
    { intros f Hf Hx. destruct (Hfit f Hf Hx) as (v & Hv & Hfv).
      exists v. split; [done|]. apply fits_conforms; [|done].
      intros it. by apply H8. }
    destruct (pack_then_unpack name fields cls Hnew Hwf vals' Hc)
      as (b2 & Hb2 & Hun).
    rewrite Hpack in Hb2. injection Hb2 as <-.
    destruct (Hun vals') as (v2 & -> & Hk & Hn). f_equal.
    apply map_eq. intros n.
    destruct (decide (n ∈ _keys cls)); [by apply Hk | by apply Hn].
Qed.

Lemma unpack_then_pack_witness :
  ∃ vals' b',
    MapStruct.unpack ex_cls
      (VBytes (pyb "AB" ++ [x00; x43; xff; xff; x07; x07])) ex_long
    = (vals', Ok ())
    ∧ MapStruct.pack ex_cls vals' = Ok b'
    ∧ length b' = 8.
Proof.
  destruct (unpack_then_pack "Ex" ex_fields ex_cls
              (pyb "AB" ++ [x00; x43; xff; xff; x07; x07]) ex_long
              ltac:(vm_compute; reflexivity) ltac:(vm_compute; reflexivity)
              ltac:(vm_compute; reflexivity))
    as (vals' & b' & Hu & _ & Hp & Hl & _).
  exists vals', b'. split; [exact Hu|]. split; [exact Hp | exact Hl].
Defined.

(** ** A constructor call that raises *)






(** ** Construction from raw bytes *)

(** X9: a constructor call on a compiled class with the keyword [bytes]
    (and no keyword [self]).  With a buffer of the size of the type the
    constructor returns, whatever the positional values and the other
    keywords are: the instance is the defaults overwritten by the fields
    decoded from the buffer, so every non-filler field holds a value that
    fits it and every other name its default.  With a buffer of another
    length it raises the size error of [struct]. *)
Theorem init_from_bytes (name : string) (fields : list FieldSpec)
    (cls : StructClass) (args : list Value) (kwargs : list (string * Value))
    (b : pybytes) :
  StructMeta.__new__ name fields = Ok cls →
  wf_fields fields = true →
  lookup_last (Some "self"%string) (kw_names kwargs) = None →
  lookup_last (Some "bytes"%string) (kw_names kwargs) = Some (VBytes b) →
  (length b = MapStruct.size cls →
     ∃ vals,
       MapStruct.__init__ cls args kwargs = (vals, Ok ())
       ∧ vals = write_all (MapStruct.default_values fields)
                  (decode_fields fields b)
       ∧ (∀ f, In f fields → is_filler f = false →
            ∃ v, vals !! f_name f = Some v ∧ fits f v = true)
       ∧ (∀ n, n ∉ _keys cls →
            vals !! n = MapStruct.default_values fields !! n))
  ∧ (length b ≠ MapStruct.size cls →
       snd (MapStruct.__init__ cls args kwargs)
       = Raise (struct_error BadSize)).
Proof.
  intros Hnew Hwf Hself Hb.
  assert (H : MapStruct.__init__ cls args kwargs
              = MapStruct.unpack cls (VBytes b) (MapStruct.default_values fields)).
  { unfold MapStruct.__init__. rewrite (cls_fields name fields cls Hnew).
    change (map (λ kv : string * Value, (Some kv.1, kv.2)) kwargs)
      with (kw_names kwargs).
    rewrite (od_get_update (Some "self"%string) [] (kw_names kwargs)), Hself.
    simpl.
    by rewrite (od_get_update (Some "bytes"%string) [] (kw_names kwargs)), Hb. }
  split; intros Hl.
  - destruct (unpack_fits name fields cls Hnew Hwf b
                (MapStruct.default_values fields) Hl) as (vals & Hu & Hfit).
    exists vals. split; [by rewrite H|]. split; [|split; [done|]].
    + rewrite (unpack_right_size name fields cls Hnew Hwf b _ Hl) in Hu.
      by injection Hu as <-.
    + intros n Hn.
      pose proof (reachable_outside name fields cls Hnew
                    (MapStruct.__init__ cls args kwargs).1 n
                    (reach_init cls args kwargs) Hn) as Ho.
      by rewrite H, Hu in Ho.
  - by rewrite H, (unpack_bad_size cls b _ Hl).
Qed.

Lemma init_from_bytes_witness :
  ∃ vals,
    MapStruct.__init__ ex_cls [VStr (py "ZZ")]
      [("count", VInt 9);
       ("bytes", VBytes (pyb "AB" ++ [x00; x00; x05; x00; x00; x00]))]%string
    = (vals, Ok ())
    ∧ vals !! Some "id"%string = Some (VStr (py "AB"))
    ∧ vals !! Some "count"%string = Some (VInt 5).
Proof.
  destruct (proj1 (init_from_bytes "Ex" ex_fields ex_cls [VStr (py "ZZ")]
                     [("count", VInt 9);
                      ("bytes",
                       VBytes (pyb "AB" ++ [x00; x00; x05; x00; x00; x00]))]%string
                     (pyb "AB" ++ [x00; x00; x05; x00; x00; x00])
                     ltac:(vm_compute; reflexivity)
                     ltac:(vm_compute; reflexivity)
                     ltac:(vm_compute; reflexivity)
                     ltac:(vm_compute; reflexivity))
             ltac:(vm_compute; reflexivity))
    as (vals & Hrun & -> & _).
  exists (write_all (MapStruct.default_values ex_fields)
            (decode_fields ex_fields
               (pyb "AB" ++ [x00; x00; x05; x00; x00; x00]))).
  split; [exact Hrun|]. split; vm_compute; reflexivity.
Defined.
